(** * Routing composables and the auto-import module

    A shallow embedding of
    - [packages/nuxt/src/app/composables/router.ts]
      ([addRouteMiddleware], [isProcessingMiddleware], [navigateTo],
      [abortNavigation]), and
    - the [imports] build module ([isImportsTemplate],
      [regenerateImports] and the [builder:watch] /
      [app:templatesGenerated] hook handlers),
    followed by the properties established about them. *)

From Stdlib Require Import ZArith Ascii String.
From stdpp Require Import base option list strings gmap sorting.

Local Open Scope string_scope.
Local Open Scope list_scope.

(** ** JavaScript truthiness of the few value shapes that occur *)

Module Js.

(** [!!s] for a string: only the empty string is falsy. *)
Definition truthy_string (s : string) : bool :=
  match s with
  | EmptyString => false
  | String _ _ => true
  end.

(** [!!b] for an optional boolean ([undefined] is falsy). *)
Definition truthy_flag (b : option bool) : bool :=
  match b with
  | Some true => true
  | _ => false
  end.

(** [!!n] for an optional integer ([undefined] and [0] are falsy). *)
Definition truthy_int (n : option Z) : bool :=
  match n with
  | Some z => negb (Z.eqb z 0)
  | None => false
  end.

(** [s || d] on an optional string. *)
Definition string_or (s : option string) (d : string) : string :=
  match s with
  | Some v => if truthy_string v then v else d
  | None => d
  end.

(** [s.startsWith(p)]. *)
Fixpoint startsWith (p s : string) : bool :=
  match p, s with
  | EmptyString, _ => true
  | String a p', String b s' => if Ascii.eqb a b then startsWith p' s' else false
  | String _ _, EmptyString => false
  end.

End Js.

(** ** router.ts *)

Module Router.

(** *** Data *)

(** A route middleware function; only its identity matters here. *)
Inductive RouteMiddleware := Middleware (id : nat).

(** The object forms of vue-router's [RouteLocationRaw]
    ([RouteLocationPathRaw] carries [path], [RouteLocationNamedRaw]
    carries [name]); an absent field is [None]. *)
Record RouteLocationObject := {
  path : option string;
  name : option string;
  hash : option string;
}.

Inductive RouteLocationRaw :=
| LocString (s : string)
| LocObject (o : RouteLocationObject).

(** The first parameter of [navigateTo]:
    [RouteLocationRaw | undefined | null]. *)
Inductive Target :=
| TNull
| TUndefined
| TRaw (to : RouteLocationRaw).

Record NavigateToOptions := {
  replace : option bool;
  redirectCode : option Z;
  external : option bool;
}.

Record AddRouteMiddlewareOptions := {
  global : option bool;
}.

(** [process.client], [process.server], [process.dev]. *)
Record Process := {
  client : bool;
  server : bool;
  dev : bool;
}.

Inductive H3Event := Event (id : nat).

Record SSRContext := {
  event : option H3Event;
}.

(** What the object [nuxtApp._middleware.named] inherits from: it is an
    ordinary object, so [Object.prototype] at first, and a middleware
    function once one has been assigned to it under ['__proto__']. *)
Inductive Prototype :=
| ObjectPrototype
| FunctionObject (f : RouteMiddleware).

(** [nuxtApp._middleware]: the array [global], and the object [named]
    as its own properties and its prototype. *)
Record MiddlewareStore := {
  mw_global : list RouteMiddleware;
  mw_named : gmap string RouteMiddleware;
  mw_named_proto : Prototype;
}.

(** The fields of the application instance that router.ts reads.
    [baseURL] is [useRuntimeConfig().app.baseURL]. *)
Record NuxtApp := {
  _processingMiddleware : bool;
  ssrContext : option SSRContext;
  baseURL : string;
  _middleware : MiddlewareStore;
}.

(** The first parameter of [addRouteMiddleware]:
    [string | RouteMiddleware]. *)
Inductive NameOrMiddleware :=
| ByName (n : string)
| ByFunction (f : RouteMiddleware).

(** The argument of [abortNavigation]: [string | Partial<NuxtError>]. *)
Record PartialNuxtError := {
  statusCode : option Z;
  message : option string;
}.

Inductive AbortArg :=
| AbortMessage (s : string)
| AbortError (e : PartialNuxtError).

Inductive Error :=
| ExternalNotAllowed        (* 'Navigating to external URL is not allowed by default. ...' *)
| ScriptProtocol            (* 'Cannot navigate to an URL with script protocol.' *)
| OnlyInsideMiddleware      (* 'abortNavigation() is only usable inside a route middleware handler.' *)
| InstanceUnavailable       (* thrown by useNuxtApp() when no instance is set *)
| CreatedError (from : AbortArg)  (* the value of createError(err) *)
| TypeError (property : string).  (* an assignment to a property that cannot be written *)

(** The guard installed by [router.beforeEach] on the server: it
    issues the redirect once the final route has the given path. *)
Record DeferredRedirect := {
  when_fullPath : string;
  redirect_to : string;
  redirect_code : Z;
}.

(** Calls into the host (router, server response, browser location,
    hook bus, console), in the order they are made. *)
Inductive Action :=
| CallHook (hook : string)
| SendRedirect (ev : H3Event) (location : string) (code : Z)
| RouterBeforeEach (g : DeferredRedirect)
| LocationReplace (url : string)
| LocationHref (url : string)
| RouterPush (to : RouteLocationRaw)
| RouterReplace (to : RouteLocationRaw)
| ConsoleWarn (msg : string)
| RouterBeforeResolve (layout : string).

(** What [navigateTo] hands back. *)
Inductive NavValue :=
| RawTarget (to : RouteLocationRaw)
| RedirectPromise (settles_to : option bool)  (* [false] or [undefined] *)
| ResolvedPromise                             (* Promise.resolve() *)
| RouterPromise.                              (* of router.push / router.replace *)

(** *** Effects: a trace of host calls and a value or a thrown error *)

Inductive Outcome (A : Type) :=
| Returned (a : A)
| Thrown (e : Error).
Arguments Returned {A} a.
Arguments Thrown {A} e.

Definition Eff (A : Type) : Type := list Action * Outcome A.

Definition ret {A} (a : A) : Eff A := ([], Returned a).

Definition throw {A} (e : Error) : Eff A := ([], Thrown e).

Definition act (a : Action) : Eff unit := ([a], Returned tt).

Definition bind {A B} (m : Eff A) (k : A -> Eff B) : Eff B :=
  match m with
  | (t, Returned a) => let '(t', r) := k a in (t ++ t', r)
  | (t, Thrown e) => (t, Thrown e)
  end.

(** [try { m } catch { h }]. *)
Definition try_catch {A} (m : Eff A) (h : Eff A) : Eff A :=
  match m with
  | (t, Returned a) => (t, Returned a)
  | (t, Thrown _) => let '(t', r) := h in (t ++ t', r)
  end.

(** The sequencing notations [x ← m; k] and [m;; k] are stdpp's. *)
#[global] Instance eff_ret : MRet Eff := @ret.
#[global] Instance eff_bind : MBind Eff := fun A B k m => bind m k.

Definition trace {A} (m : Eff A) : list Action := fst m.
Definition outcome {A} (m : Eff A) : Outcome A := snd m.

Section Composables.

(** ufo's [hasProtocol(_, { acceptRelative: true })] and
    [parseURL(_).protocol], and [joinURL]. *)
Variable hasProtocol : string -> bool.
Variable parseURL_protocol : string -> string.
Variable joinURL : string -> string -> string.
(** [router.resolve(to).fullPath]. *)
Variable resolve_fullPath : RouteLocationRaw -> string.

Variable process : Process.
(** The instance [useNuxtApp()] finds, if any. *)
Variable instance : option NuxtApp.

Definition useNuxtApp : Eff NuxtApp :=
  match instance with
  | Some app => ret app
  | None => throw InstanceUnavailable
  end.

(** [useRouter]: the router itself is the host's; obtaining it
    goes through [useNuxtApp]. *)
Definition useRouter : Eff unit :=
  _ ← useNuxtApp; ret tt.

Definition isProcessingMiddleware : Eff bool :=
  try_catch
    (app ← useNuxtApp; ret (_processingMiddleware app))
    (ret true).

(** [!!to]: [null], [undefined] and the empty string are falsy. *)
Definition truthy_target (to : Target) : bool :=
  match to with
  | TNull | TUndefined => false
  | TRaw (LocString s) => Js.truthy_string s
  | TRaw (LocObject _) => true
  end.

(** [if (!to) { to = '/' }] *)
Definition default_target (to : Target) : RouteLocationRaw :=
  match to with
  | TRaw r => if truthy_target to then r else LocString "/"
  | TNull | TUndefined => LocString "/"
  end.

(** [typeof to === 'string' ? to : (to.path || '/')] *)
Definition toPath_of (to : RouteLocationRaw) : string :=
  match to with
  | LocString s => s
  | LocObject o => Js.string_or (path o) "/"
  end.

Definition is_string (to : RouteLocationRaw) : bool :=
  match to with
  | LocString _ => true
  | LocObject _ => false
  end.

(** [options?.external], [options?.replace], [options?.redirectCode] *)
Definition opt_external (options : option NavigateToOptions) : bool :=
  Js.truthy_flag (options ≫= external).
Definition opt_replace (options : option NavigateToOptions) : bool :=
  Js.truthy_flag (options ≫= replace).
Definition opt_redirectCode (options : option NavigateToOptions) : Z :=
  let c := options ≫= redirectCode in
  if Js.truthy_int c then default 302%Z c else 302%Z.

Definition isExternal_of (toPath : string) (options : option NavigateToOptions) : bool :=
  opt_external options || hasProtocol toPath.

(** [nuxtApp.ssrContext && nuxtApp.ssrContext.event] *)
Definition ssr_event (app : NuxtApp) : option H3Event :=
  ssrContext app ≫= event.

Definition redirect (ev : H3Event) (redirectLocation : string)
    (options : option NavigateToOptions) (inMiddleware : bool) : Eff NavValue :=
  act (CallHook "app:redirected");;
  act (SendRedirect ev redirectLocation (opt_redirectCode options));;
  ret (RedirectPromise (if inMiddleware then Some false else None)).

Definition navigateTo (to0 : Target) (options : option NavigateToOptions) : Eff NavValue :=
  let to := default_target to0 in
  let toPath := toPath_of to in
  let isExternal := isExternal_of toPath options in
  if isExternal && negb (opt_external options) then throw ExternalNotAllowed
  else if isExternal && String.eqb (parseURL_protocol toPath) "script:" then throw ScriptProtocol
  else
    inMiddleware ← isProcessingMiddleware;
    if client process && negb isExternal && inMiddleware then ret (RawTarget to)
    else
      _ ← useRouter;
      let client_side : Eff NavValue :=
        if isExternal then
          (if opt_replace options
           then act (LocationReplace toPath)
           else act (LocationHref toPath));;
          ret ResolvedPromise
        else
          (if opt_replace options
           then act (RouterReplace to)
           else act (RouterPush to));;
          ret RouterPromise in
      if server process then
        nuxtApp ← useNuxtApp;
        match ssr_event nuxtApp with
        | Some ev =>
            let fullPath :=
              if is_string to || isExternal then toPath
              else Js.string_or (Some (resolve_fullPath to)) "/" in
            let redirectLocation :=
              if isExternal then toPath else joinURL (baseURL nuxtApp) fullPath in
            if negb isExternal && inMiddleware then
              act (RouterBeforeEach
                     {| when_fullPath := fullPath;
                        redirect_to := redirectLocation;
                        redirect_code := opt_redirectCode options |});;
              ret (RawTarget to)
            else redirect ev redirectLocation options inMiddleware
        | None => client_side
        end
      else client_side.

(** [!!err] for the argument of [abortNavigation]: an object is
    truthy, a message unless it is empty. *)
Definition truthy_arg (a : AbortArg) : bool :=
  match a with
  | AbortMessage s => Js.truthy_string s
  | AbortError _ => true
  end.

Definition abortNavigation (err : option AbortArg) : Eff bool :=
  outside ← (if dev process
             then (p ← isProcessingMiddleware; ret (negb p))
             else ret false);
  if (outside : bool) then throw OnlyInsideMiddleware
  else
    match err with
    | Some a => if truthy_arg a then throw (CreatedError a) else ret false
    | None => ret false
    end.

Definition is_name (x : NameOrMiddleware) : bool :=
  match x with
  | ByName _ => true
  | ByFunction _ => false
  end.

Definition push_global (mw : RouteMiddleware) (s : MiddlewareStore) : MiddlewareStore :=
  {| mw_global := mw_global s ++ [mw];
     mw_named := mw_named s;
     mw_named_proto := mw_named_proto s |}.

(** An own property of [named] created or overwritten. *)
Definition define_own (n : string) (mw : RouteMiddleware) (s : MiddlewareStore) : MiddlewareStore :=
  {| mw_global := mw_global s;
     mw_named := <[n:=mw]> (mw_named s);
     mw_named_proto := mw_named_proto s |}.

(** The prototype of [named] replaced, by the ['__proto__'] setter it
    inherits from [Object.prototype]. *)
Definition set_prototype (mw : RouteMiddleware) (s : MiddlewareStore) : MiddlewareStore :=
  {| mw_global := mw_global s;
     mw_named := mw_named s;
     mw_named_proto := FunctionObject mw |}.

(** The names an object with a function as prototype cannot be
    assigned: the function's own [name] and [length] are read-only, and
    [caller] and [arguments] have a setter that throws. *)
Definition read_only_of_function (n : string) : bool :=
  String.eqb n "name" || String.eqb n "length"
  || String.eqb n "caller" || String.eqb n "arguments".

(** [nuxtApp._middleware.named[name] = mw], in strict code: an own
    property is overwritten; otherwise ['__proto__'] reaches the
    inherited setter and replaces the prototype, a name inherited as
    read-only makes the assignment throw, and any other name becomes a
    new own property. *)
Definition set_named (n : string) (mw : RouteMiddleware) (s : MiddlewareStore)
    : Eff MiddlewareStore :=
  if bool_decide (is_Some (mw_named s !! n)) then ret (define_own n mw s)
  else if String.eqb n "__proto__" then ret (set_prototype mw s)
  else
    match mw_named_proto s with
    | ObjectPrototype => ret (define_own n mw s)
    | FunctionObject _ =>
        if read_only_of_function n then throw (TypeError n)
        else ret (define_own n mw s)
    end.

(** Returns [nuxtApp._middleware] as the call leaves it. *)
Definition addRouteMiddleware (name : NameOrMiddleware)
    (middleware : option RouteMiddleware)
    (options : AddRouteMiddlewareOptions) : Eff MiddlewareStore :=
  nuxtApp ← useNuxtApp;
  let store := _middleware nuxtApp in
  let global := Js.truthy_flag (global options) || negb (is_name name) in
  let mw := match name with
            | ByFunction f => Some f
            | ByName _ => middleware
            end in
  match mw with
  | None =>
      act (ConsoleWarn "[nuxt] No route middleware passed to `addRouteMiddleware`.");;
      ret store
  | Some mw =>
      if global then ret (push_global mw store)
      else
        match name with
        | ByName n => set_named n mw store
        | ByFunction _ => ret store (* not reached: [global] holds for a function *)
        end
  end.

End Composables.

(** *** Kinds of host calls *)

Definition is_router_call (a : Action) : bool :=
  match a with
  | RouterBeforeEach _ | RouterPush _ | RouterReplace _ | RouterBeforeResolve _ => true
  | _ => false
  end.

Definition is_location_call (a : Action) : bool :=
  match a with
  | LocationReplace _ | LocationHref _ => true
  | _ => false
  end.

Definition is_http_redirect (a : Action) : bool :=
  match a with
  | SendRedirect _ _ _ => true
  | _ => false
  end.

(** *** useRoute and setPageLayout *)

(** The route object [useRoute] hands back: the one a component
    provides under ['_route'], or [nuxtApp._route]. *)
Inductive RouteRef :=
| InjectedRoute
| AppRoute.

(** What Vue knows at the call: whether [getCurrentInstance()] finds a
    component, and whether ['_route'] is provided to it. *)
Record Vue := {
  in_component : bool;
  route_provided : bool;
}.

(** [nuxtApp.isHydrating] and [nuxtApp.payload.serverRendered]. *)
Record Hydration := {
  isHydrating : bool;
  serverRendered : bool;
}.

(** The cells [setPageLayout] writes: [useState('_layout').value], the
    [meta.layout] of the two route objects, and the layouts of the
    [beforeResolve] guards it has installed (each sets [to.meta.layout]
    once and unsubscribes). *)
Record LayoutState := {
  state_layout : option string;
  injected_meta_layout : option string;
  app_meta_layout : option string;
  beforeResolve_layouts : list string;
}.

(** [nuxtApp._middleware] replaced in place. *)
Definition with_middleware (app : NuxtApp) (s : MiddlewareStore) : NuxtApp :=
  {| _processingMiddleware := _processingMiddleware app;
     ssrContext := ssrContext app;
     baseURL := baseURL app;
     _middleware := s |}.

Section Layout.

Variable process : Process.
Variable instance : option NuxtApp.
Variable vue : Vue.
Variable hydration : Hydration.

Definition useRoute : Eff RouteRef :=
  warn ← (if dev process then isProcessingMiddleware instance else ret false);
  (if (warn : bool)
   then act (ConsoleWarn "[nuxt] Calling `useRoute` within middleware may lead to misleading results. Instead, use the (to, from) arguments passed to the middleware to access the new and old routes.")
   else ret tt);;
  if in_component vue then
    _ ← useNuxtApp instance;
    ret (if route_provided vue then InjectedRoute else AppRoute)
  else
    _ ← useNuxtApp instance;
    ret AppRoute.

(** [useState('_layout').value], read and written; the state lives
    on the application instance. *)
Definition layout_value (st : LayoutState) : Eff (option string) :=
  _ ← useNuxtApp instance; ret (state_layout st).

Definition set_layout_value (layout : string) (st : LayoutState) : Eff LayoutState :=
  _ ← useNuxtApp instance;
  ret {| state_layout := Some layout;
         injected_meta_layout := injected_meta_layout st;
         app_meta_layout := app_meta_layout st;
         beforeResolve_layouts := beforeResolve_layouts st |}.

(** [value !== layout] *)
Definition differs (value : option string) (layout : string) : bool :=
  negb (bool_decide (value = Some layout)).

(** [useRouter().beforeResolve(...)] *)
Definition add_beforeResolve (layout : string) (st : LayoutState) : Eff LayoutState :=
  _ ← useRouter instance;
  act (RouterBeforeResolve layout);;
  ret {| state_layout := state_layout st;
         injected_meta_layout := injected_meta_layout st;
         app_meta_layout := app_meta_layout st;
         beforeResolve_layouts := beforeResolve_layouts st ++ [layout] |}.

(** [route.meta.layout = layout] *)
Definition set_meta_layout (r : RouteRef) (layout : string) (st : LayoutState) : LayoutState :=
  match r with
  | InjectedRoute =>
      {| state_layout := state_layout st;
         injected_meta_layout := Some layout;
         app_meta_layout := app_meta_layout st;
         beforeResolve_layouts := beforeResolve_layouts st |}
  | AppRoute =>
      {| state_layout := state_layout st;
         injected_meta_layout := injected_meta_layout st;
         app_meta_layout := Some layout;
         beforeResolve_layouts := beforeResolve_layouts st |}
  end.

Definition meta_layout (r : RouteRef) (st : LayoutState) : option string :=
  match r with
  | InjectedRoute => injected_meta_layout st
  | AppRoute => app_meta_layout st
  end.

Definition setPageLayout (layout : string) (st : LayoutState) : Eff LayoutState :=
  st1 ← (if server process then
           w ← (if dev process && in_component vue
                then (v ← layout_value st; ret (differs v layout))
                else ret false);
           (if (w : bool)
            then act (ConsoleWarn "[warn] [nuxt] `setPageLayout` should not be called to change the layout on the server within a component as this will cause hydration errors.")
            else ret tt);;
           set_layout_value layout st
         else ret st);
  _ ← useNuxtApp instance;
  w ← (if dev process && isHydrating hydration && serverRendered hydration
       then (v ← layout_value st1; ret (differs v layout))
       else ret false);
  (if (w : bool)
   then act (ConsoleWarn "[warn] [nuxt] `setPageLayout` should not be called to change the layout during hydration as this will cause hydration errors.")
   else ret tt);;
  inMiddleware ← isProcessingMiddleware instance;
  st2 ← (if inMiddleware || server process || isHydrating hydration
         then add_beforeResolve layout st1
         else ret st1);
  if negb inMiddleware then
    r ← useRoute;
    ret (set_meta_layout r layout st2)
  else ret st2.

End Layout.

End Router.

(** ** The imports module *)

Module Imports.

(** *** The regular expression of [isImportsTemplate] *)

Inductive regex :=
| Chr (c : ascii)
| Eps
| Cat (r1 r2 : regex)
| Alt (r1 r2 : regex).

Fixpoint lit (s : string) : regex :=
  match s with
  | EmptyString => Eps
  | String c s' => Cat (Chr c) (lit s')
  end.

(** All the ways [r] matches a prefix of [s], each given by what is
    left of [s] after it. *)
Fixpoint exec (r : regex) (s : string) : list string :=
  match r with
  | Chr c =>
      match s with
      | String d s' => if Ascii.eqb c d then [s'] else []
      | EmptyString => []
      end
  | Eps => [s]
  | Cat r1 r2 => flat_map (exec r2) (exec r1 s)
  | Alt r1 r2 => exec r1 s ++ exec r2 s
  end.

Definition is_empty (s : string) : bool :=
  match s with
  | EmptyString => true
  | String _ _ => false
  end.

(** [/r$/.test(s)]: a match may start anywhere and must reach the
    end of the input. *)
Fixpoint test_to_end (r : regex) (s : string) : bool :=
  existsb is_empty (exec r s) ||
  match s with
  | EmptyString => false
  | String _ s' => test_to_end r s'
  end.

(** [/\/imports\.(?:d\.ts|mjs)$/] *)
Definition IMPORTS_TEMPLATE_RE : regex :=
  Cat (lit "/imports.") (Alt (lit "d.ts") (lit "mjs")).

(** The words [r] matches, read off the expression. *)
Fixpoint lang (r : regex) (w : string) : Prop :=
  match r with
  | Chr c => w = String c EmptyString
  | Eps => w = EmptyString
  | Cat r1 r2 => exists u v, w = u +:+ v /\ lang r1 u /\ lang r2 v
  | Alt r1 r2 => lang r1 w \/ lang r2 w
  end.

(** "[s] ends in [suffix]", as the prose about template file names
    has it. *)
Definition ends_in (suffix s : string) : Prop :=
  exists p, s = p +:+ suffix.

(** A file name of an imports template: one that ends in
    [/imports.d.ts] or in [/imports.mjs]. *)
Definition imports_filename (s : string) : Prop :=
  ends_in "/imports.d.ts" s \/ ends_in "/imports.mjs" s.

(** *** Data *)

Record Import := {
  name : string;
  from : string;
  priority : option Z;
}.

Record ResolvedNuxtTemplate := {
  filename : string;
}.

(** [layer.config.imports] *)
Record LayerImports := {
  layer_scan : option bool;
  layer_dirs : option (list string);
}.

(** [layer.config] *)
Record Layer := {
  srcDir : string;
  rootDir : string;
  imports : option LayerImports;
}.

(** The module options and the parts of [nuxt.options] that
    [setup] reads. *)
Record Config := {
  scan : bool;
  _layers : list Layer;
  nuxt_srcDir : string;
  isNuxtV4 : bool;
}.

Inductive WatchEvent := add | addDir | change | unlink | unlinkDir.

Definition is_dir_event (e : WatchEvent) : bool :=
  match e with
  | addDir | unlinkDir => true
  | _ => false
  end.

(** Calls into unimport, kit and the hook bus, in order. *)
Inductive Event :=
| Cleared                                         (* imports.length = 0 *)
| Scanned (dirs : list string)                    (* scanDirExports(composablesDirs, ...) *)
| Extended (given : list Import)                  (* callHook('imports:extend', imports) *)
| Persisted (result : list Import)                (* modifyDynamicImports stores the returned list *)
| TemplatesUpdated (rendered : list ResolvedNuxtTemplate)  (* updateTemplates({ filter }) *)
| LoggedInfo (relativePath : string) (created : bool)
| Restarted.                                      (* callHook('restart') *)

(** *** Effects: [ctx]'s dynamic import list as state, and the trace *)

Definition M (A : Type) : Type := list Import -> A * list Import * list Event.

Definition ret {A} (a : A) : M A := fun st => (a, st, []).

Definition bind {A B} (m : M A) (k : A -> M B) : M B :=
  fun st =>
    let '(a, st1, t1) := m st in
    let '(b, st2, t2) := k a st1 in
    (b, st2, t1 ++ t2).

#[global] Instance m_ret : MRet M := @ret.
#[global] Instance m_bind : MBind M := fun A B k m => bind m k.

Definition emit (e : Event) : M unit := fun st => (tt, st, [e]).
Definition get : M (list Import) := fun st => (st, st, []).
Definition put (l : list Import) : M unit := fun _ => (tt, l, []).

Definition final_imports {A} (r : A * list Import * list Event) : list Import := snd (fst r).
Definition events {A} (r : A * list Import * list Event) : list Event := snd r.

Definition isImportsTemplate (template : ResolvedNuxtTemplate) : bool :=
  test_to_end IMPORTS_TEMPLATE_RE (filename template).

(** [arr.sort(cmp)] with [cmp a b = b.length - a.length] on the first
    components: stable, longest directory first. *)
Fixpoint insert_by_length (x : string * Z) (l : list (string * Z)) : list (string * Z) :=
  match l with
  | [] => [x]
  | y :: l' =>
      if (String.length y.1 <? String.length x.1)%nat
      then x :: y :: l'
      else y :: insert_by_length x l'
  end.

Definition sort_by_length (l : list (string * Z)) : list (string * Z) :=
  foldl (fun acc x => insert_by_length x acc) [] l.

Section Setup.

(** pathe's [resolve] (on its argument list) and [normalize]. *)
Variable resolve : list string -> string.
Variable normalize : string -> string.
(** What the handlers of [imports:dirs] and [imports:extend] leave
    in the array they are given. *)
Variable hook_imports_dirs : list string -> list string.
Variable hook_imports_extend : list Import -> list Import.
(** unimport's [scanDirExports] with the [isIgnored] file filter. *)
Variable scanDirExports : list string -> list Import.
(** The templates registered with the application. *)
Variable templates : list ResolvedNuxtTemplate.

Variable cfg : Config.

Definition dirs_of_layer (layer : Layer) : list string :=
  if bool_decide (imports layer ≫= layer_scan = Some false) then []
  else
    [resolve [srcDir layer; "composables"]; resolve [srcDir layer; "utils"]]
    ++ (if isNuxtV4 cfg
        then [resolve [rootDir layer; "shared"; "utils"];
              resolve [rootDir layer; "shared"; "types"]]
        else [])
    ++ map (fun dir => resolve [srcDir layer; dir])
           (List.filter Js.truthy_string (default [] (imports layer ≫= layer_dirs))).

Definition composablesDirs : list string :=
  if scan cfg
  then map normalize (hook_imports_dirs (flat_map dirs_of_layer (_layers cfg)))
  else [].

Definition priorities : list (string * Z) :=
  sort_by_length (imap (fun i layer => (srcDir layer, (- Z.of_nat i)%Z)) (_layers cfg)).

(** [i.priority = i.priority || priorities.find(([dir]) => i.from.startsWith(dir))?.[1]] *)
Definition with_priority (i : Import) : Import :=
  {| name := name i;
     from := from i;
     priority :=
       if Js.truthy_int (priority i) then priority i
       else snd <$> List.find (fun p => Js.startsWith p.1 (from i)) priorities |}.

(** unimport's [ctx.modifyDynamicImports(fn)]: [fn] works on the
    context's own array, and the array it returns is stored. *)
Definition modifyDynamicImports (fn : M (list Import)) : M unit :=
  result ← fn;
  put result;;
  emit (Persisted result).

(** kit's [updateTemplates({ filter })]. *)
Definition updateTemplates (filter : ResolvedNuxtTemplate -> bool) : M unit :=
  emit (TemplatesUpdated (List.filter filter templates)).

Definition regenerateImports : M unit :=
  modifyDynamicImports (
    (* Clear old imports *)
    put [];; emit Cleared;;
    (* Scan for composables/ and utils/ directories *)
    (if scan cfg then
       emit (Scanned composablesDirs);;
       let scannedImports := map with_priority (scanDirExports composablesDirs) in
       imports ← get;
       put (imports ++ scannedImports)
     else mret tt);;
    (* Modules extending *)
    imports ← get;
    emit (Extended imports);;
    put (hook_imports_extend imports);;
    get);;
  updateTemplates isImportsTemplate.

(** The first [builder:watch] handler; registered only when
    [options.scan] holds. *)
Definition watch_restart (event : WatchEvent) (relativePath : string) : M unit :=
  if negb (is_dir_event event) then mret tt
  else
    let path := resolve [nuxt_srcDir cfg; relativePath] in
    if bool_decide (path ∈ composablesDirs)
    then
      emit (LoggedInfo relativePath
              (match event with addDir => true | _ => false end));;
      emit Restarted
    else mret tt.

(** The second [builder:watch] handler. *)
Definition watch_regenerate (event : WatchEvent) (relativePath : string) : M unit :=
  let path := resolve [nuxt_srcDir cfg; relativePath] in
  if scan cfg &&
     existsb (fun dir => String.eqb dir path || Js.startsWith (dir +:+ "/") path)
             composablesDirs
  then regenerateImports
  else mret tt.

(** [callHook('builder:watch', event, relativePath)]: the handlers
    this module registered, in registration order. *)
Definition builder_watch (event : WatchEvent) (relativePath : string) : M unit :=
  (if scan cfg then watch_restart event relativePath else mret tt);;
  watch_regenerate event relativePath.

(** The [app:templatesGenerated] handler. *)
Definition app_templatesGenerated (updated : list ResolvedNuxtTemplate) : M unit :=
  if existsb (fun t => negb (isImportsTemplate t)) updated
  then regenerateImports
  else mret tt.

End Setup.

(** *** addDeclarationTemplates: the cache of resolved import paths *)

(** [Array.from(new Set(l))]: the first occurrence of each entry, in
    order. *)
Definition unique (l : list string) : list string :=
  foldl (fun seen x => if bool_decide (x ∈ seen) then seen else seen ++ [x]) [] l.

Section Declarations.

(** kit's [resolveAlias] and [tryResolveModule(_, modulesDir)], mlly's
    [parseNodeModulePath] (its [dir] and [name]) and
    [lookupNodeModuleSubpath], pathe's [isAbsolute], [relative] and
    [join]. *)
Variable resolveAlias : string -> string.
Variable isAbsolute : string -> bool.
Variable tryResolveModule : string -> option string.
Variable parseNodeModulePath : string -> option string * option string.
Variable lookupNodeModuleSubpath : string -> option string.
Variable relative : string -> string -> string.
Variable join : list string -> string.
(** [existsSync(path) && !(await isDirectory(path))] *)
Variable is_file : string -> bool.
(** [path.replace(SUPPORTED_EXTENSION_RE, '')] *)
Variable strip_extension : string -> string.
(** [nuxt._dependencies] and [nuxt.options.buildDir]. *)
Variable dependencies : option (gset string).
Variable buildDir : string.

(** [nuxt._dependencies?.has(name)] *)
Definition is_dependency (n : string) : bool :=
  match dependencies with
  | Some deps => bool_decide (n ∈ deps)
  | None => false
  end.

(** The callback given to [tryResolveModule(...).then], followed by
    [?? path]. *)
Definition resolve_in_modules (from path : string) : string :=
  match tryResolveModule from with
  | None => path
  | Some r =>
      if negb (Js.truthy_string r) then r
      else
        let '(dir, name) := parseNodeModulePath r in
        if match name with
           | Some n => Js.truthy_string n && is_dependency n
           | None => false
           end
        then from
        else
          match dir, name with
          | Some d, Some n =>
              if Js.truthy_string d && Js.truthy_string n
              then join [d; n; Js.string_or (lookupNodeModuleSubpath r) ""]
              else r
          | _, _ => r
          end
  end.

(** The path stored for one import source. *)
Definition resolved_path (from : string) : string :=
  let path := resolveAlias from in
  let path := if negb (isAbsolute path) then resolve_in_modules from path else path in
  let path := if is_file path then strip_extension path else path in
  if isAbsolute path then relative (join [buildDir; "types"]) path else path.

(** One callback of [cacheImportPaths] on [resolvedImportPathMap]. *)
Definition cache_one (m : gmap string string) (from : string) : gmap string string :=
  if bool_decide (is_Some (m !! from)) || is_dependency from then m
  else <[from := resolved_path from]> m.

(** The callbacks run for pairwise different sources, and each reads
    and writes its own key only, so the order in which they finish
    does not show in the map. *)
Definition cacheImportPaths (imports : list Import) (m : gmap string string)
    : gmap string string :=
  foldl cache_one m (unique (map from imports)).

(** [r], the [resolvePath] given to [generateTypeDeclarations]. *)
Definition resolvePath (m : gmap string string) (i : Import) : option string :=
  m !! from i.

End Declarations.

End Imports.

(** ** ufo's URL tests, for running the model on concrete URLs

    [navigateTo] is stated over any [hasProtocol] and [parseURL]; the
    functions here follow ufo's regular expressions closely enough to
    evaluate the examples. *)

Module Ufo.

Definition code (c : ascii) : nat := nat_of_ascii c.

(** [\s] on ASCII, and [\0] *)
Definition is_space (c : ascii) : bool :=
  let n := code c in
  (n =? 32)%nat || ((9 <=? n)%nat && (n <=? 13)%nat).
Definition is_nul (c : ascii) : bool := (code c =? 0)%nat.

(** [\w] *)
Definition is_word (c : ascii) : bool :=
  let n := code c in
  ((48 <=? n)%nat && (n <=? 57)%nat) || ((65 <=? n)%nat && (n <=? 90)%nat)
  || ((97 <=? n)%nat && (n <=? 122)%nat) || (n =? 95)%nat.

(** [+.-] *)
Definition is_scheme_punct (c : ascii) : bool :=
  let n := code c in (n =? 43)%nat || (n =? 46)%nat || (n =? 45)%nat.

Definition is_slash (c : ascii) : bool :=
  let n := code c in (n =? 47)%nat || (n =? 92)%nat.

(** The longest prefix of characters satisfying [p], and the rest. *)
Fixpoint span (p : ascii -> bool) (s : string) : string * string :=
  match s with
  | String c s' =>
      if p c then let '(a, b) := span p s' in (String c a, b) else (EmptyString, s)
  | EmptyString => (EmptyString, EmptyString)
  end.

(** [/^[\s\w\0+.-]{2,}:([/\\]{2})?/] *)
Definition PROTOCOL_REGEX (s : string) : bool :=
  let '(scheme, rest) :=
    span (fun c => is_space c || is_word c || is_nul c || is_scheme_punct c) s in
  (2 <=? String.length scheme)%nat && Js.startsWith ":" rest.

(** ufo's relative-protocol test: two or more slashes (of either
    kind, each possibly followed by white space) and then a character
    that is no slash; [k] slashes have been read so far. *)
Fixpoint relative_from (k : nat) (s : string) : bool :=
  match s with
  | EmptyString => false
  | String c s' =>
      if is_slash c then relative_from (S k) s'
      else if is_space c then (2 <=? k)%nat || ((1 <=? k)%nat && relative_from k s')
      else (2 <=? k)%nat
  end.
Definition PROTOCOL_RELATIVE_REGEX (s : string) : bool := relative_from 0 s.

(** [hasProtocol(input, { acceptRelative: true })] *)
Definition hasProtocol (input : string) : bool :=
  PROTOCOL_REGEX input || PROTOCOL_RELATIVE_REGEX input.

Definition lower (c : ascii) : ascii :=
  let n := code c in
  if (65 <=? n)%nat && (n <=? 90)%nat then ascii_of_nat (n + 32) else c.

Fixpoint toLowerCase (s : string) : string :=
  match s with
  | EmptyString => EmptyString
  | String c s' => String (lower c) (toLowerCase s')
  end.

(** [input.replace(/\\/g, '/')] *)
Fixpoint forward_slashes (s : string) : string :=
  match s with
  | EmptyString => EmptyString
  | String c s' =>
      String (if (code c =? 92)%nat then "/"%char else c) (forward_slashes s')
  end.

(** [parseURL(input).protocol]: the scheme in front of [//], in
    lower case; empty when the input has none. *)
Definition parseURL_protocol (input : string) : string :=
  if negb (hasProtocol input) then EmptyString
  else
    let '(_, s) := span (fun c => is_space c || is_nul c) (forward_slashes input) in
    let '(scheme, rest) := span (fun c => is_word c || is_scheme_punct c) s in
    if (2 <=? String.length scheme)%nat && Js.startsWith "://" rest
    then toLowerCase scheme +:+ ":"
    else EmptyString.

(** [joinURL(base, input)] for the simple shapes used below. *)
Definition joinURL (base input : string) : string :=
  if String.eqb base "/" then input
  else if String.eqb base "" then input
  else base +:+ input.

End Ufo.

(** ** Running the model *)

Module Examples.
Import Router.

Definition browser : Process := {| client := true; server := false; dev := true |}.
Definition node : Process := {| client := false; server := true; dev := false |}.
Definition production_browser : Process := {| client := true; server := false; dev := false |}.

Definition store0 : MiddlewareStore :=
  {| mw_global := [Middleware 1];
     mw_named := {[ "auth" := Middleware 2 ]};
     mw_named_proto := ObjectPrototype |}.

Definition app (inMiddleware : bool) (ssr : option SSRContext) : NuxtApp :=
  {| _processingMiddleware := inMiddleware;
     ssrContext := ssr;
     baseURL := "/";
     _middleware := store0 |}.

Definition resolve_fullPath (to : RouteLocationRaw) : string :=
  match to with
  | LocString s => s
  | LocObject o => Js.string_or (path o) "/"
  end.

Definition nav (p : Process) (i : option NuxtApp) :=
  navigateTo Ufo.hasProtocol Ufo.parseURL_protocol Ufo.joinURL resolve_fullPath p i.

Definition external_ok : option NavigateToOptions :=
  Some {| replace := None; redirectCode := None; external := Some true |}.

(** A project with one layer rooted at [/app]. *)
Definition layer0 : Imports.Layer :=
  {| Imports.srcDir := "/app"; Imports.rootDir := "/app"; Imports.imports := None |}.

Definition config (scanning : bool) : Imports.Config :=
  {| Imports.scan := scanning;
     Imports._layers := [layer0];
     Imports.nuxt_srcDir := "/app";
     Imports.isNuxtV4 := false |}.

Definition join_path (parts : list string) : string := String.concat "/" parts.

Definition useFoo : Imports.Import :=
  {| Imports.name := "useFoo"; Imports.from := "/app/composables/foo.ts";
     Imports.priority := None |}.
Definition useBar : Imports.Import :=
  {| Imports.name := "useBar"; Imports.from := "my-module"; Imports.priority := Some 1%Z |}.

(** A directory scan that finds [useFoo], and a module that adds
    [useBar] through [imports:extend]. *)
Definition scan_fs (dirs : list string) : list Imports.Import :=
  match dirs with
  | [] => []
  | _ :: _ => [useFoo]
  end.
Definition extend_hook (l : list Imports.Import) : list Imports.Import := l ++ [useBar].

Definition registered : list Imports.ResolvedNuxtTemplate :=
  [ {| Imports.filename := "app.config.mjs" |};
    {| Imports.filename := "types/imports.d.ts" |};
    {| Imports.filename := "imports.mjs" |} ].

Definition regenerate (scanning : bool) :=
  Imports.regenerateImports join_path id id extend_hook scan_fs registered (config scanning).

(** A request being served, and the page state of a browser. *)
Definition request : option SSRContext := Some {| event := Some (Event 0) |}.

Definition in_page : Vue := {| in_component := true; route_provided := true |}.
Definition settled : Hydration := {| isHydrating := false; serverRendered := true |}.
Definition layouts0 : LayoutState :=
  {| state_layout := Some "default";
     injected_meta_layout := None;
     app_meta_layout := None;
     beforeResolve_layouts := [] |}.

(** Resolution of import sources in a project that has [vue]
    installed: aliases and bare names stay, nothing is found in
    [node_modules]. *)
Definition installed : option (gset string) := Some {[ "vue" ]}.

Definition cache_paths :=
  Imports.cacheImportPaths id (Js.startsWith "/") (fun _ => None) (fun _ => (None, None))
    (fun _ => None) (fun _ path => path) join_path (fun _ => false) id installed "/app/.nuxt".

Definition paths0 : gmap string string := {[ "#app" := "../app" ]}.

End Examples.

(** ** Properties of router.ts *)

Module RouterProps.
Import Router.

#[local] Ltac run := cbv [mbind mret eff_bind eff_ret bind ret throw act try_catch].

Section Navigation.

Variable hasProtocol : string -> bool.
Variable parseURL_protocol : string -> string.
Variable joinURL : string -> string -> string.
Variable resolve_fullPath : RouteLocationRaw -> string.
Variable process : Process.

Local Abbreviation nav :=
  (navigateTo hasProtocol parseURL_protocol joinURL resolve_fullPath process).

(** [isProcessingMiddleware] calls nothing on the host and never
    throws: a missing instance counts as being inside middleware. *)
Lemma isProcessingMiddleware_eq instance :
  isProcessingMiddleware instance =
  ([], Returned (match instance with
                 | Some app => _processingMiddleware app
                 | None => true
                 end)).
Proof. destruct instance; reflexivity. Qed.

Lemma default_target_truthy to :
  truthy_target (TRaw to) = true -> default_target (TRaw to) = to.
Proof. unfold default_target. intros ->. reflexivity. Qed.

Lemma default_target_falsy to0 :
  truthy_target to0 = false -> default_target to0 = LocString "/".
Proof. destruct to0; simpl; try reflexivity. intros ->. reflexivity. Qed.

(** The two guards in front of everything else. *)
Lemma navigateTo_guard_external to0 options :
  isExternal_of hasProtocol (toPath_of (default_target to0)) options = true ->
  opt_external options = false ->
  forall instance, nav instance to0 options = ([], Thrown ExternalNotAllowed).
Proof.
  intros Hext Hopt instance. unfold navigateTo.
  rewrite Hext, Hopt. reflexivity.
Qed.

Lemma navigateTo_guard_script to0 options :
  isExternal_of hasProtocol (toPath_of (default_target to0)) options = true ->
  opt_external options = true ->
  parseURL_protocol (toPath_of (default_target to0)) = "script:" ->
  forall instance, nav instance to0 options = ([], Thrown ScriptProtocol).
Proof.
  intros Hext Hopt Hproto instance. unfold navigateTo.
  rewrite Hext, Hopt, Hproto. reflexivity.
Qed.

(** [options?.redirectCode || 302] *)
Lemma opt_redirectCode_spec options :
  opt_redirectCode options =
  match options ≫= redirectCode with
  | Some c => if (c =? 0)%Z then 302%Z else c
  | None => 302%Z
  end.
Proof.
  unfold opt_redirectCode, Js.truthy_int.
  destruct (options ≫= redirectCode) as [c|]; [|done].
  by destruct (c =? 0)%Z.
Qed.

(** C1 (as amended): on the client, while a route middleware is being
    processed, [navigateTo] of an internal target calls nothing on
    the host (no redirect, no location change, no router call) and
    returns the target itself when it is truthy, and ['/'] when it is
    null, undefined or the empty string. *)
Theorem navigateTo_client_middleware_returns_target instance to0 options :
  client process = true ->
  isProcessingMiddleware instance = ([], Returned true) ->
  isExternal_of hasProtocol (toPath_of (default_target to0)) options = false ->
  nav instance to0 options = ([], Returned (RawTarget (default_target to0)))
  /\ (forall to, to0 = TRaw to -> truthy_target to0 = true -> default_target to0 = to)
  /\ (truthy_target to0 = false -> default_target to0 = LocString "/").
Proof.
  intros Hclient Hmw Hint. split; [|split].
  - unfold navigateTo. rewrite Hint. cbn [andb].
    run. rewrite Hmw, Hclient. reflexivity.
  - intros to -> Ht. by apply default_target_truthy.
  - apply default_target_falsy.
Qed.

(** C2: a target whose path carries a protocol, without
    [external: true], makes [navigateTo] throw before any call on the
    host. *)
Theorem navigateTo_external_needs_option instance to0 options :
  hasProtocol (toPath_of (default_target to0)) = true ->
  opt_external options = false ->
  nav instance to0 options = ([], Thrown ExternalNotAllowed).
Proof.
  intros Hproto Hopt. apply navigateTo_guard_external; [|done].
  unfold isExternal_of. rewrite Hproto. apply orb_true_r.
Qed.

(** The script guard: when [parseURL] reports the protocol [script:]
    for an external target, [navigateTo] throws before any call on the
    host, also with [external: true]. *)
Theorem navigateTo_script_protocol_throws instance to0 options :
  isExternal_of hasProtocol (toPath_of (default_target to0)) options = true ->
  parseURL_protocol (toPath_of (default_target to0)) = "script:" ->
  trace (nav instance to0 options) = []
  /\ (exists e, outcome (nav instance to0 options) = Thrown e)
  /\ (opt_external options = true ->
      nav instance to0 options = ([], Thrown ScriptProtocol)).
Proof.
  intros Hext Hproto.
  destruct (opt_external options) eqn:Hopt.
  - rewrite (navigateTo_guard_script _ _ Hext Hopt Hproto). eauto.
  - rewrite (navigateTo_guard_external _ _ Hext Hopt).
    split; [done|]. split; [eauto|done].
Qed.

(** C9 (as amended): a null or undefined target is replaced by ['/'],
    and the call then does what the decision table gives for ['/']:
    the two guards on the path ['/'], the early return of ['/'] on the
    client inside middleware, the redirect or the deferred redirect to
    ['/'] in a server request, [location] or the router with ['/']
    otherwise. It never returns null or undefined. It throws where
    [navigateTo('/')] throws: with an application instance at hand and
    no protocol seen in ['/'] it does not throw; without an instance it
    throws, except on the client with an internal target. *)
Theorem navigateTo_nullish_is_root instance options :
  let root := LocString "/" in
  let external := opt_external options || hasProtocol "/" in
  let code :=
    match options ≫= redirectCode with
    | Some c => if (c =? 0)%Z then 302%Z else c
    | None => 302%Z
    end in
  let expected : Eff NavValue :=
    if external && negb (opt_external options) then ([], Thrown ExternalNotAllowed)
    else if external && String.eqb (parseURL_protocol "/") "script:"
    then ([], Thrown ScriptProtocol)
    else
      match instance with
      | None =>
          if client process && negb external
          then ([], Returned (RawTarget root))
          else ([], Thrown InstanceUnavailable)
      | Some app =>
          let inMiddleware := _processingMiddleware app in
          if client process && negb external && inMiddleware
          then ([], Returned (RawTarget root))
          else
            match (if server process then ssr_event app else None) with
            | Some ev =>
                if external then
                  ([CallHook "app:redirected"; SendRedirect ev "/" code],
                   Returned (RedirectPromise (if inMiddleware then Some false else None)))
                else if inMiddleware then
                  ([RouterBeforeEach
                      {| when_fullPath := "/";
                         redirect_to := joinURL (baseURL app) "/";
                         redirect_code := code |}],
                   Returned (RawTarget root))
                else
                  ([CallHook "app:redirected";
                    SendRedirect ev (joinURL (baseURL app) "/") code],
                   Returned (RedirectPromise None))
            | None =>
                if external then
                  ([if opt_replace options then LocationReplace "/" else LocationHref "/"],
                   Returned ResolvedPromise)
                else
                  ([if opt_replace options then RouterReplace root else RouterPush root],
                   Returned RouterPromise)
            end
      end in
  nav instance TNull options = expected
  /\ nav instance TUndefined options = expected
  /\ nav instance (TRaw root) options = expected
  /\ (forall to0 v, to0 = TNull \/ to0 = TUndefined ->
        outcome (nav instance to0 options) = Returned (RawTarget v) -> v = root)
  /\ (forall to0, to0 = TNull \/ to0 = TUndefined ->
        is_Some instance ->
        hasProtocol "/" = false ->
        parseURL_protocol "/" <> "script:" ->
        exists v, outcome (nav instance to0 options) = Returned v)
  /\ (forall to0, to0 = TNull \/ to0 = TUndefined ->
        instance = None ->
        client process = false ->
        hasProtocol "/" = false ->
        opt_external options = false ->
        nav instance to0 options = ([], Thrown InstanceUnavailable)).
Proof.
  cbv zeta.
  assert (Hnull : forall to0, to0 = TNull \/ to0 = TUndefined ->
            nav instance to0 options = nav instance (TRaw (LocString "/")) options)
    by (intros to0 [-> | ->]; reflexivity).
  match goal with
  | |- _ = ?e /\ _ =>
      assert (Hroot : nav instance (TRaw (LocString "/")) options = e)
  end.
  { unfold navigateTo, redirect, isExternal_of.
    cbn [default_target truthy_target Js.truthy_string toPath_of is_string orb].
    rewrite isProcessingMiddleware_eq, <- opt_redirectCode_spec.
    destruct (opt_external options), (hasProtocol "/"),
      (String.eqb (parseURL_protocol "/") "script:"),
      instance as [app|], (client process), (server process);
      run; cbn;
      try destruct (_processingMiddleware app); cbn;
      try destruct (ssr_event app); cbn;
      try destruct (opt_replace options); reflexivity. }
  split; [by rewrite (Hnull TNull) by auto|].
  split; [by rewrite (Hnull TUndefined) by auto|].
  split; [done|].
  split; [|split].
  - intros to0 v Hto. rewrite (Hnull to0 Hto), Hroot. clear Hroot Hnull.
    destruct (opt_external options), (hasProtocol "/"),
      (String.eqb (parseURL_protocol "/") "script:"),
      instance as [app|], (client process), (server process); cbn;
      try destruct (_processingMiddleware app); cbn;
      try destruct (ssr_event app); cbn;
      intros H; try discriminate H; by inversion H.
  - intros to0 Hto [app ->] Hp Hs. rewrite (Hnull to0 Hto), Hroot. clear Hroot Hnull.
    apply String.eqb_neq in Hs. rewrite Hp, Hs.
    destruct (opt_external options), (client process), (server process); cbn;
      destruct (_processingMiddleware app); cbn;
      try destruct (ssr_event app); cbn; eauto.
  - intros to0 Hto -> Hc Hp He. rewrite (Hnull to0 Hto), Hroot.
    by rewrite Hc, Hp, He.
Qed.

(** C6 (as amended): in a development build, [abortNavigation] called
    with an application instance at hand that is not processing route
    middleware throws; when no instance is found the call is taken to
    be inside a middleware, and a production build makes no check: in
    both cases a call without an error returns [false]. *)
Theorem abortNavigation_outside_middleware instance err :
  (forall app, instance = Some app -> _processingMiddleware app = false ->
     dev process = true ->
     abortNavigation process instance err = ([], Thrown OnlyInsideMiddleware))
  /\ (dev process = false ->
      abortNavigation process instance None = ([], Returned false))
  /\ (instance = None ->
      abortNavigation process instance None = ([], Returned false)).
Proof.
  unfold abortNavigation. rewrite isProcessingMiddleware_eq.
  split; [|split].
  - intros app -> Hmw ->. run. rewrite Hmw. reflexivity.
  - by intros ->.
  - intros ->. by destruct (dev process).
Qed.

(** C7 (as amended): inside a route middleware, [abortNavigation]
    without an argument returns [false] and does not throw; with a
    truthy argument (a non-empty message or an error object) it
    throws the error [createError] makes of it; an empty message
    counts as no argument. *)
Theorem abortNavigation_inside_middleware instance :
  isProcessingMiddleware instance = ([], Returned true) ->
  abortNavigation process instance None = ([], Returned false)
  /\ (forall a, truthy_arg a = true ->
       abortNavigation process instance (Some a) = ([], Thrown (CreatedError a)))
  /\ abortNavigation process instance (Some (AbortMessage "")) = ([], Returned false).
Proof.
  intros Hmw.
  assert (Hguard : forall err,
    abortNavigation process instance err =
    match err with
    | Some a => if truthy_arg a then throw (CreatedError a) else ret false
    | None => ret false
    end).
  { intros err. unfold abortNavigation. destruct (dev process).
    - run. rewrite Hmw. cbn. by destruct err as [a|]; [destruct (truthy_arg a)|].
    - run. cbn. by destruct err as [a|]; [destruct (truthy_arg a)|]. }
  split; [|split].
  - by rewrite Hguard.
  - intros a Ha. by rewrite Hguard, Ha.
  - by rewrite Hguard.
Qed.

End Navigation.

(** *** Middleware registration *)

Section Registration.

Variable app : NuxtApp.

Local Abbreviation store := (_middleware app).

Lemma push_global_spec mw (s : MiddlewareStore) :
  mw_global (push_global mw s) = mw_global s ++ [mw]
  /\ mw_named (push_global mw s) = mw_named s
  /\ (forall i x, mw_global s !! i = Some x -> mw_global (push_global mw s) !! i = Some x).
Proof.
  split; [done|]. split; [done|].
  intros i x Hi. simpl. by apply lookup_app_l_Some.
Qed.

Lemma define_own_spec n mw (s : MiddlewareStore) :
  mw_global (define_own n mw s) = mw_global s
  /\ mw_named (define_own n mw s) !! n = Some mw
  /\ (forall k, k <> n -> mw_named (define_own n mw s) !! k = mw_named s !! k).
Proof.
  split; [done|]. split; simpl.
  - apply lookup_insert_eq.
  - intros k Hk. by apply lookup_insert_ne.
Qed.

(** The assignment is a plain insertion for every name but
    ['__proto__'], as long as the prototype is [Object.prototype]. *)
Lemma set_named_ordinary n mw (s : MiddlewareStore) :
  n <> "__proto__" ->
  mw_named_proto s = ObjectPrototype ->
  set_named n mw s = ([], Returned (define_own n mw s)).
Proof.
  intros Hn Hproto. unfold set_named. case_bool_decide; [done|].
  apply String.eqb_neq in Hn. by rewrite Hn, Hproto.
Qed.

(** X29: registering a global middleware (a function alone, or a
    name with [global: true]) appends it to the global list, keeping
    every earlier entry at its index and the named object as it was;
    registering under a name other than ['__proto__'], on a named
    object that still has [Object.prototype] as prototype, sets that
    one property and leaves the other names, the prototype and the
    global list as they were. *)
Theorem addRouteMiddleware_registers :
  (forall f middleware options,
     exists store',
       addRouteMiddleware (Some app) (ByFunction f) middleware options
         = ([], Returned store')
       /\ mw_global store' = mw_global store ++ [f]
       /\ mw_named store' = mw_named store
       /\ (forall i x, mw_global store !! i = Some x -> mw_global store' !! i = Some x))
  /\ (forall n f options,
       global options = Some true ->
       exists store',
         addRouteMiddleware (Some app) (ByName n) (Some f) options
           = ([], Returned store')
         /\ mw_global store' = mw_global store ++ [f]
         /\ mw_named store' = mw_named store
         /\ (forall i x, mw_global store !! i = Some x -> mw_global store' !! i = Some x))
  /\ (forall n f options,
       Js.truthy_flag (global options) = false ->
       n <> "__proto__" ->
       mw_named_proto store = ObjectPrototype ->
       exists store',
         addRouteMiddleware (Some app) (ByName n) (Some f) options
           = ([], Returned store')
         /\ mw_global store' = mw_global store
         /\ mw_named_proto store' = ObjectPrototype
         /\ mw_named store' !! n = Some f
         /\ (forall k, k <> n -> mw_named store' !! k = mw_named store !! k)).
Proof.
  split; [|split].
  - intros f middleware options. exists (push_global f store).
    split; [|apply push_global_spec].
    unfold addRouteMiddleware. run. cbn.
    by rewrite orb_true_r.
  - intros n f options Hg. exists (push_global f store).
    split; [|apply push_global_spec].
    unfold addRouteMiddleware. run. cbn. by rewrite Hg.
  - intros n f options Hg Hn Hproto. exists (define_own n f store).
    split; [|split; [done|split; [done|apply define_own_spec]]].
    unfold addRouteMiddleware.
    cbv [mbind mret eff_bind eff_ret bind ret useNuxtApp is_name negb].
    rewrite Hg. cbn [orb]. by rewrite (set_named_ordinary n f store Hn Hproto).
Qed.

End Registration.

(** *** The statements above at concrete inputs *)

Import Examples.

Lemma navigateTo_client_middleware_returns_target_witness :
  nav browser (Some (Examples.app true None)) (TRaw (LocString "/about")) None
    = ([], Returned (RawTarget (LocString "/about"))).
Proof.
  refine (proj1 (navigateTo_client_middleware_returns_target
                   Ufo.hasProtocol Ufo.parseURL_protocol Ufo.joinURL resolve_fullPath
                   browser (Some (Examples.app true None))
                   (TRaw (LocString "/about")) None _ _ _)); reflexivity.
Defined.

(** C1 as it is worded fails for the empty string: the target is
    internal, the call is made on the client inside a middleware, and
    what comes back is ['/'], not the target. *)
Lemma navigateTo_empty_target_is_changed :
  let to0 := TRaw (LocString "") in
  client browser = true
  /\ isProcessingMiddleware (Some (Examples.app true None)) = ([], Returned true)
  /\ isExternal_of Ufo.hasProtocol (toPath_of (default_target to0)) None = false
  /\ nav browser (Some (Examples.app true None)) to0 None
       = ([], Returned (RawTarget (LocString "/")))
  /\ ~ (exists to, to0 = TRaw to
                  /\ nav browser (Some (Examples.app true None)) to0 None
                       = ([], Returned (RawTarget to))).
Proof.
  cbv zeta. repeat split; try reflexivity.
  intros (to & Hto & Hnav). inversion Hto; subst to.
  vm_compute in Hnav. discriminate Hnav.
Qed.

Lemma navigateTo_external_needs_option_witness :
  nav browser (Some (Examples.app false None)) (TRaw (LocString "https://nuxt.com/docs")) None
    = ([], Thrown ExternalNotAllowed).
Proof.
  refine (navigateTo_external_needs_option
            Ufo.hasProtocol Ufo.parseURL_protocol Ufo.joinURL resolve_fullPath
            browser (Some (Examples.app false None))
            (TRaw (LocString "https://nuxt.com/docs")) None _ _); reflexivity.
Defined.

Lemma navigateTo_script_protocol_throws_witness :
  nav browser (Some (Examples.app false None)) (TRaw (LocString "script://x.dev/y")) external_ok
    = ([], Thrown ScriptProtocol).
Proof.
  refine (proj2 (proj2 (navigateTo_script_protocol_throws
            Ufo.hasProtocol Ufo.parseURL_protocol Ufo.joinURL resolve_fullPath
            browser (Some (Examples.app false None))
            (TRaw (LocString "script://x.dev/y")) external_ok _ _)) _); reflexivity.
Defined.

Lemma navigateTo_nullish_is_root_witness :
  exists v, outcome (nav browser (Some (Examples.app false None)) TNull None) = Returned v.
Proof.
  refine (proj1 (proj2 (proj2 (proj2 (proj2 (navigateTo_nullish_is_root
            Ufo.hasProtocol Ufo.parseURL_protocol Ufo.joinURL resolve_fullPath
            browser (Some (Examples.app false None)) None))))) TNull _ _ _ _).
  - left; reflexivity.
  - eexists; reflexivity.
  - reflexivity.
  - discriminate.
Defined.

(** C9 as it is worded fails on the server when no application
    instance is found: the target is null, and the call throws. *)
Lemma navigateTo_null_without_instance_throws :
  server node = true
  /\ nav node None TNull None = ([], Thrown InstanceUnavailable)
  /\ nav node None (TRaw (LocString "/")) None = ([], Thrown InstanceUnavailable)
  /\ ~ (exists v, outcome (nav node None TNull None) = Returned v).
Proof.
  repeat split. intros [v Hv]. discriminate Hv.
Qed.

(** C10 as it is worded fails for a [script:] URL without [//]: ufo
    sees a protocol in it, [parseURL] reports none, the guard does not
    fire, and the URL is assigned to [location.href]. *)
Lemma navigateTo_script_url_sets_location :
  let url := "script:alert(1)" in
  Js.startsWith "script:" url = true
  /\ Ufo.hasProtocol url = true
  /\ Ufo.parseURL_protocol url = ""
  /\ nav browser (Some (Examples.app false None)) (TRaw (LocString url)) external_ok
       = ([LocationHref url], Returned ResolvedPromise)
  /\ ~ (exists e, outcome (nav browser (Some (Examples.app false None))
                            (TRaw (LocString url)) external_ok) = Thrown e).
Proof.
  cbv zeta. repeat split. intros [e He]. discriminate He.
Qed.

Lemma abortNavigation_outside_middleware_witness :
  abortNavigation browser (Some (Examples.app false None)) None
    = ([], Thrown OnlyInsideMiddleware).
Proof.
  exact (proj1 (abortNavigation_outside_middleware
                  browser (Some (Examples.app false None)) None)
           (Examples.app false None) eq_refl eq_refl eq_refl).
Defined.

(** C6 as it is worded fails in a production build: outside any
    middleware the call returns [false]. *)
Lemma abortNavigation_production_returns :
  isProcessingMiddleware (Some (Examples.app false None)) = ([], Returned false)
  /\ abortNavigation production_browser (Some (Examples.app false None)) None
       = ([], Returned false)
  /\ ~ (exists e, outcome (abortNavigation production_browser
                             (Some (Examples.app false None)) None) = Thrown e).
Proof.
  repeat split. intros [e He]. discriminate He.
Qed.

Lemma abortNavigation_inside_middleware_witness :
  abortNavigation browser (Some (Examples.app true None)) (Some (AbortMessage "forbidden"))
    = ([], Thrown (CreatedError (AbortMessage "forbidden"))).
Proof.
  refine (proj1 (proj2 (abortNavigation_inside_middleware
                   browser (Some (Examples.app true None)) _)) _ _); reflexivity.
Defined.

(** C7 as it is worded fails for the empty message: it is an error
    argument, and the call returns [false] instead of throwing. *)
Lemma abortNavigation_empty_message_returns :
  isProcessingMiddleware (Some (Examples.app true None)) = ([], Returned true)
  /\ abortNavigation browser (Some (Examples.app true None)) (Some (AbortMessage ""))
       = ([], Returned false)
  /\ ~ (exists e, outcome (abortNavigation browser (Some (Examples.app true None))
                             (Some (AbortMessage ""))) = Thrown e).
Proof.
  repeat split. intros [e He]. discriminate He.
Qed.

Lemma addRouteMiddleware_registers_witness :
  exists store',
    addRouteMiddleware (Some (Examples.app false None)) (ByName "admin")
      (Some (Middleware 7)) {| global := None |} = ([], Returned store')
    /\ mw_global store' = [Middleware 1]
    /\ mw_named store' !! "admin" = Some (Middleware 7)
    /\ mw_named store' !! "auth" = Some (Middleware 2).
Proof.
  destruct (proj2 (proj2 (addRouteMiddleware_registers (Examples.app false None)))
              "admin" (Middleware 7) {| global := None |} eq_refl)
    as (store' & Hrun & Hglobal & _ & Hnamed & Hothers);
    [discriminate|reflexivity|].
  exists store'. split; [exact Hrun|]. split; [exact Hglobal|]. split; [exact Hnamed|].
  rewrite Hothers by discriminate. reflexivity.
Defined.

(** C8 as it is worded fails for the name ['__proto__']: the
    registration creates no entry under that name and replaces the
    prototype of the named object instead, after which a registration
    under ['name'] throws. *)
Lemma addRouteMiddleware_proto_name :
  let before := Examples.app false None in
  let after := set_prototype (Middleware 7) (_middleware before) in
  Js.truthy_flag (global {| global := None |}) = false
  /\ addRouteMiddleware (Some before) (ByName "__proto__") (Some (Middleware 7))
       {| global := None |} = ([], Returned after)
  /\ mw_named after !! "__proto__" = None
  /\ mw_named after = mw_named (_middleware before)
  /\ mw_named_proto after = FunctionObject (Middleware 7)
  /\ mw_named_proto (_middleware before) = ObjectPrototype
  /\ addRouteMiddleware (Some (with_middleware before after)) (ByName "name")
       (Some (Middleware 8)) {| global := None |} = ([], Thrown (TypeError "name")).
Proof.
  cbv zeta. repeat split.
Qed.

End RouterProps.

(** ** Properties of the imports module *)

Module ImportsProps.
Import Imports.

(** *** The regular expression *)

Lemma append_cons c s t : String c s +:+ t = String c (s +:+ t).
Proof. reflexivity. Qed.

Lemma append_nil_l s : "" +:+ s = s.
Proof. reflexivity. Qed.

Lemma append_nil_r s : s +:+ "" = s.
Proof. induction s as [|c s IH]; [done|]. by rewrite append_cons, IH. Qed.

Lemma append_assoc s t u : (s +:+ t) +:+ u = s +:+ (t +:+ u).
Proof. induction s as [|c s IH]; [done|]. by rewrite !append_cons, IH. Qed.

(** [exec] finds exactly the splits of the input into a word of the
    expression and a rest. *)
Lemma exec_spec r : forall s rest,
  In rest (exec r s) <-> exists w, s = w +:+ rest /\ lang r w.
Proof.
  induction r as [c| |r1 IH1 r2 IH2|r1 IH1 r2 IH2]; intros s rest; simpl.
  - destruct s as [|d s'].
    + split; [done|]. intros (w & Hs & ->). discriminate Hs.
    + destruct (Ascii.eqb_spec c d) as [->|Hne]; simpl.
      * split.
        -- intros [<-|[]]. by exists (String d "").
        -- intros (w & Hs & ->). left. by inversion Hs.
      * split; [done|]. intros (w & Hs & ->). inversion Hs. congruence.
  - split.
    + intros [<-|[]]. by exists "".
    + intros (w & -> & ->). by left.
  - rewrite in_flat_map. split.
    + intros (mid & Hmid & Hrest).
      apply IH1 in Hmid as (u & -> & Hu). apply IH2 in Hrest as (v & -> & Hv).
      exists (u +:+ v). split; [by rewrite append_assoc|]. by exists u, v.
    + intros (w & -> & u & v & -> & Hu & Hv).
      exists (v +:+ rest). split.
      * apply IH1. exists u. split; [by rewrite append_assoc|done].
      * apply IH2. by exists v.
  - rewrite in_app_iff, IH1, IH2. split.
    + intros [(w & Hs & Hw)|(w & Hs & Hw)]; exists w; auto.
    + intros (w & Hs & [Hw|Hw]); [left|right]; by exists w.
Qed.

Lemma lang_lit x w : lang (lit x) w <-> w = x.
Proof.
  revert w. induction x as [|c x IH]; intros w; simpl; [done|]. split.
  - intros (u & v & -> & -> & Hv). apply IH in Hv as ->. done.
  - intros ->. exists (String c ""), x. split; [done|]. split; [done|]. by apply IH.
Qed.

Lemma exec_to_end r s : existsb is_empty (exec r s) = true <-> lang r s.
Proof.
  rewrite existsb_exists. split.
  - intros (rest & Hin & Hrest). destruct rest; [|done].
    apply exec_spec in Hin as (w & -> & Hw). by rewrite append_nil_r.
  - intros Hs. exists "". split; [|done].
    apply exec_spec. exists s. by rewrite append_nil_r.
Qed.

(** The test with [$] and no [^]: some suffix of the input is a word
    of the expression. *)
Lemma test_to_end_spec r s :
  test_to_end r s = true <-> exists p w, s = p +:+ w /\ lang r w.
Proof.
  induction s as [|c s IH]; simpl; rewrite orb_true_iff, exec_to_end.
  - split.
    + intros [H|H]; [|done]. by exists "", "".
    + intros (p & w & Hs & Hw). left.
      destruct p as [|d p]; [|by rewrite append_cons in Hs].
      rewrite append_nil_l in Hs. by subst w.
  - rewrite IH. split.
    + intros [H|(p & w & -> & Hw)].
      * by exists "", (String c s).
      * by exists (String c p), w.
    + intros (p & w & Hs & Hw). destruct p as [|d p].
      * left. rewrite append_nil_l in Hs. by subst w.
      * right. rewrite append_cons in Hs. inversion Hs; subst. by exists p, w.
Qed.

Lemma lang_IMPORTS_TEMPLATE_RE w :
  lang IMPORTS_TEMPLATE_RE w <-> w = "/imports.d.ts" \/ w = "/imports.mjs".
Proof.
  unfold IMPORTS_TEMPLATE_RE.
  change (lang (Cat ?a (Alt ?b ?c)) w)
    with (exists u v, w = u +:+ v /\ lang a u /\ (lang b v \/ lang c v)).
  split.
  - intros (u & v & -> & Hu & Hv). apply lang_lit in Hu as ->.
    destruct Hv as [Hv|Hv]; apply lang_lit in Hv as ->; [by left|by right].
  - intros [->| ->].
    + exists "/imports.", "d.ts". split; [done|]. split; [|left]; by apply lang_lit.
    + exists "/imports.", "mjs". split; [done|]. split; [|right]; by apply lang_lit.
Qed.

(** [isImportsTemplate] holds of the templates whose file name ends in
    [/imports.d.ts] or [/imports.mjs], and of no other. *)
Lemma isImportsTemplate_spec t :
  isImportsTemplate t = true <-> imports_filename (filename t).
Proof.
  unfold isImportsTemplate, imports_filename, ends_in.
  rewrite test_to_end_spec. split.
  - intros (p & w & Hs & Hw). apply lang_IMPORTS_TEMPLATE_RE in Hw as [->| ->]; eauto.
  - intros [[p Hs]|[p Hs]]; eexists p, _; (split; [exact Hs|]);
      apply lang_IMPORTS_TEMPLATE_RE; auto.
Qed.

#[local] Ltac run :=
  cbv [mbind mret m_bind m_ret bind ret emit get put
       regenerateImports modifyDynamicImports updateTemplates
       watch_restart watch_regenerate builder_watch app_templatesGenerated].

Section Setup.

Variable resolve : list string -> string.
Variable normalize : string -> string.
Variable hook_imports_dirs : list string -> list string.
Variable hook_imports_extend : list Import -> list Import.
Variable scanDirExports : list string -> list Import.
Variable templates : list ResolvedNuxtTemplate.
Variable cfg : Config.

Local Abbreviation dirs := (composablesDirs resolve normalize hook_imports_dirs cfg).
Local Abbreviation regenerate :=
  (regenerateImports resolve normalize hook_imports_dirs hook_imports_extend
     scanDirExports templates cfg).

(** One run of [regenerateImports], whatever the list held before:
    [found] is what the scan contributes. *)
Lemma regenerateImports_run st :
  let found :=
    if scan cfg then map (with_priority cfg) (scanDirExports dirs) else [] in
  regenerate st =
  (tt, hook_imports_extend found,
   Cleared
   :: (if scan cfg then [Scanned dirs] else [])
   ++ [Extended found;
       Persisted (hook_imports_extend found);
       TemplatesUpdated (List.filter isImportsTemplate templates)]).
Proof. run. by destruct (scan cfg). Qed.

Lemma regenerateImports_not_silent st : regenerate st <> (tt, st, []).
Proof. rewrite regenerateImports_run. intros H. inversion H. Qed.

(** C3: [regenerateImports] clears the list, scans the composables
    directories when scanning is on and appends what it finds, runs
    the [imports:extend] hook on the list, stores the result, and
    then re-renders the imports templates and no other, in this
    order; with scanning off the stored list is what the hook makes
    of the empty list. *)
Theorem regenerateImports_steps st :
  let found :=
    if scan cfg then map (with_priority cfg) (scanDirExports dirs) else [] in
  events (regenerate st) =
    [Cleared]
    ++ (if scan cfg then [Scanned dirs] else [])
    ++ [Extended ([] ++ found)]
    ++ [Persisted (hook_imports_extend ([] ++ found))]
    ++ [TemplatesUpdated (List.filter isImportsTemplate templates)]
  /\ final_imports (regenerate st) = hook_imports_extend ([] ++ found)
  /\ (forall t, In t (List.filter isImportsTemplate templates) <->
                In t templates /\ imports_filename (filename t))
  /\ (scan cfg = false -> final_imports (regenerate st) = hook_imports_extend []).
Proof.
  cbv zeta. rewrite regenerateImports_run. unfold events, final_imports.
  cbn [fst snd app].
  split; [by destruct (scan cfg)|]. split; [done|]. split.
  - intros t. by rewrite filter_In, isImportsTemplate_spec.
  - by intros ->.
Qed.

(** Some updated template is not an imports template. *)
Lemma some_other_template updated :
  existsb (fun t => negb (isImportsTemplate t)) updated = true <->
  exists t, In t updated /\ ~ imports_filename (filename t).
Proof.
  rewrite existsb_exists. split; intros (t & Hin & Ht); exists t; (split; [done|]).
  - rewrite <- isImportsTemplate_spec. by destruct (isImportsTemplate t).
  - rewrite <- isImportsTemplate_spec in Ht. by destruct (isImportsTemplate t).
Qed.

(** C5: when [app:templatesGenerated] fires, [regenerateImports] runs
    if and only if one of the updated templates has a file name that
    ends neither in [/imports.d.ts] nor in [/imports.mjs]; when all
    of them are imports templates nothing is done. *)
Theorem app_templatesGenerated_regenerates_iff updated st :
  (app_templatesGenerated resolve normalize hook_imports_dirs hook_imports_extend
     scanDirExports templates cfg updated st = regenerate st
   <-> exists t, In t updated /\ ~ imports_filename (filename t))
  /\ ((forall t, In t updated -> imports_filename (filename t)) ->
      app_templatesGenerated resolve normalize hook_imports_dirs hook_imports_extend
        scanDirExports templates cfg updated st = (tt, st, [])).
Proof.
  unfold app_templatesGenerated.
  destruct (existsb _ updated) eqn:Hsome.
  - apply some_other_template in Hsome. split; [done|].
    intros Hall. destruct Hsome as (t & Hin & Ht). by apply Hall in Hin.
  - split; [|done]. split.
    + intros Hrun. symmetry in Hrun. by apply regenerateImports_not_silent in Hrun.
    + intros Hex. apply some_other_template in Hex. congruence.
Qed.

(** X28: the templates [regenerateImports] re-renders do not start it
    again through [app:templatesGenerated]. *)
Lemma rerendered_templates_do_not_retrigger st :
  app_templatesGenerated resolve normalize hook_imports_dirs hook_imports_extend
    scanDirExports templates cfg (List.filter isImportsTemplate templates) st
  = (tt, st, []).
Proof.
  unfold app_templatesGenerated.
  destruct (existsb _ _) eqn:Hsome; [|done].
  apply existsb_exists in Hsome as (t & Hin & Ht).
  apply filter_In in Hin as [_ Hin]. by rewrite Hin in Ht.
Qed.

Lemma composablesDirs_need_scan path : path ∈ dirs -> scan cfg = true.
Proof.
  unfold composablesDirs. destruct (scan cfg); [done|].
  intros H. by apply elem_of_nil in H.
Qed.

Lemma watched_directory path :
  path ∈ dirs ->
  existsb (fun dir => String.eqb dir path || Js.startsWith (dir +:+ "/") path) dirs = true.
Proof.
  intros Hin. apply existsb_exists. exists path.
  split; [by apply list_elem_of_In|]. by rewrite String.eqb_refl.
Qed.

(** C4: a [builder:watch] event that reports one of the composables
    directories created or removed runs [regenerateImports] (after
    the restart request of the first handler): the import list is
    regenerated from a fresh scan and the imports templates are
    re-rendered. *)
Theorem builder_watch_directory_regenerates event relativePath st :
  is_dir_event event = true ->
  resolve [nuxt_srcDir cfg; relativePath] ∈ dirs ->
  let run :=
    builder_watch resolve normalize hook_imports_dirs hook_imports_extend
      scanDirExports templates cfg event relativePath st in
  events run =
    [LoggedInfo relativePath (match event with addDir => true | _ => false end);
     Restarted]
    ++ events (regenerate st)
  /\ final_imports run = final_imports (regenerate st)
  /\ final_imports run =
       hook_imports_extend (map (with_priority cfg) (scanDirExports dirs))
  /\ In (Persisted (final_imports run)) (events run)
  /\ In (TemplatesUpdated (List.filter isImportsTemplate templates)) (events run).
Proof.
  intros Hev Hin.
  pose proof (composablesDirs_need_scan _ Hin) as Hscan.
  pose proof (watched_directory _ Hin) as Hwatched.
  assert (Hrun :
    builder_watch resolve normalize hook_imports_dirs hook_imports_extend
      scanDirExports templates cfg event relativePath st
    = (tt, final_imports (regenerate st),
       [LoggedInfo relativePath (match event with addDir => true | _ => false end);
        Restarted] ++ events (regenerate st))).
  { unfold builder_watch, watch_restart, watch_regenerate.
    rewrite Hscan, Hev, Hwatched, (bool_decide_eq_true_2 _ Hin).
    cbv [mbind m_bind bind emit negb andb].
    by destruct (regenerate st) as [[[] st'] t]. }
  cbv zeta. rewrite Hrun. unfold events at 1 2 3, final_imports at 1 2 3 4.
  cbn [fst snd].
  rewrite regenerateImports_run. unfold events, final_imports.
  rewrite Hscan. cbn [fst snd].
  split; [done|]. split; [done|]. split; [done|].
  split; cbn; tauto.
Qed.

End Setup.

(** *** The statements above at concrete inputs *)

Import Examples.

Lemma regenerateImports_steps_witness :
  final_imports (Examples.regenerate false [useFoo]) = extend_hook [].
Proof.
  exact (proj2 (proj2 (proj2 (regenerateImports_steps
           join_path id id extend_hook scan_fs registered (config false) [useFoo])))
           eq_refl).
Defined.

Lemma builder_watch_directory_regenerates_witness :
  final_imports
    (builder_watch join_path id id extend_hook scan_fs registered (config true)
       unlinkDir "composables" [])
  = extend_hook (map (with_priority (config true)) (scan_fs ["/app/composables"; "/app/utils"])).
Proof.
  refine (proj1 (proj2 (proj2 (builder_watch_directory_regenerates
            join_path id id extend_hook scan_fs registered (config true)
            unlinkDir "composables" [] _ _)))).
  - reflexivity.
  - apply list_elem_of_In. vm_compute. by left.
Defined.

Lemma app_templatesGenerated_regenerates_iff_witness :
  app_templatesGenerated join_path id id extend_hook scan_fs registered (config true)
    [ {| filename := "types/imports.d.ts" |}; {| filename := "/b/imports.mjs" |} ] []
  = (tt, [], []).
Proof.
  refine (proj2 (app_templatesGenerated_regenerates_iff
            join_path id id extend_hook scan_fs registered (config true)
            [ {| filename := "types/imports.d.ts" |}; {| filename := "/b/imports.mjs" |} ]
            []) _).
  intros t [<-|[<-|[]]].
  - left. by exists "types".
  - right. by exists "/b".
Defined.

End ImportsProps.

(** ** Further properties of router.ts *)

Module RouterExtra.
Import Router.

#[local] Ltac run := cbv [mbind mret eff_bind eff_ret bind ret throw act try_catch].

Section Navigation.

Variable hasProtocol : string -> bool.
Variable parseURL_protocol : string -> string.
Variable joinURL : string -> string -> string.
Variable resolve_fullPath : RouteLocationRaw -> string.
Variable process : Process.

Local Abbreviation nav :=
  (navigateTo hasProtocol parseURL_protocol joinURL resolve_fullPath process).

(** Every branch of the decision table at once. *)
#[local] Ltac branches :=
  unfold navigateTo, redirect;
  rewrite RouterProps.isProcessingMiddleware_eq;
  repeat match goal with
         | |- context [isExternal_of ?h ?p ?o] => destruct (isExternal_of h p o) eqn:?
         | |- context [opt_external ?o] => destruct (opt_external o) eqn:?
         | |- context [String.eqb ?a ?b] => destruct (String.eqb a b) eqn:?
         | |- context [client ?p] => destruct (client p) eqn:?
         | |- context [server ?p] => destruct (server p) eqn:?
         | |- context [opt_replace ?o] => destruct (opt_replace o) eqn:?
         | |- context [match ?i with Some _ => _ | None => _ end] =>
             is_var i; destruct i as [?|]
         end;
  run; cbn;
  repeat match goal with
         | |- context [_processingMiddleware ?a] =>
             destruct (_processingMiddleware a) eqn:?; cbn
         | |- context [ssr_event ?a] => destruct (ssr_event a) eqn:?; cbn
         | |- context [is_string ?t] => destruct (is_string t) eqn:?; cbn
         end.

(** X1: whenever [navigateTo] throws, it has called nothing on the
    host: no hook, no redirect, no location change, no router call. *)
Theorem navigateTo_throws_before_acting instance to0 options e :
  outcome (nav instance to0 options) = Thrown e ->
  trace (nav instance to0 options) = [].
Proof.
  branches; cbn; intros H; try discriminate H; reflexivity.
Qed.

(** X2: a call of [navigateTo] ends in exactly one of these ways: it
    throws; it returns the target, with nothing done or with one
    [beforeEach] guard installed; it sends one HTTP redirect after the
    [app:redirected] hook; it sets the location once; it calls the
    router once. *)
Theorem navigateTo_decision_table instance to0 options :
  let to := default_target to0 in
  let toPath := toPath_of to in
  let r := nav instance to0 options in
  (exists e, r = ([], Thrown e))
  \/ r = ([], Returned (RawTarget to))
  \/ (exists g, r = ([RouterBeforeEach g], Returned (RawTarget to)))
  \/ (exists ev location code settles,
        r = ([CallHook "app:redirected"; SendRedirect ev location code],
             Returned (RedirectPromise settles)))
  \/ r = ([LocationReplace toPath], Returned ResolvedPromise)
  \/ r = ([LocationHref toPath], Returned ResolvedPromise)
  \/ r = ([RouterReplace to], Returned RouterPromise)
  \/ r = ([RouterPush to], Returned RouterPromise).
Proof.
  cbv zeta. branches; cbn; eauto 12.
Qed.

(** X3: an external target never reaches the router, and an internal
    target never touches [location]. *)
Theorem navigateTo_external_or_router instance to0 options :
  let external := isExternal_of hasProtocol (toPath_of (default_target to0)) options in
  forall a, In a (trace (nav instance to0 options)) ->
    (external = true -> is_router_call a = false)
    /\ (external = false -> is_location_call a = false).
Proof.
  cbv zeta. branches; cbn; intros a Ha;
    repeat (destruct Ha as [<-|Ha]; [split; intros; (discriminate || reflexivity)|]);
    destruct Ha.
Qed.

(** The status of the redirect: [options.redirectCode], and 302 when
    it is missing or zero. *)
Lemma opt_redirectCode_eq options :
  opt_redirectCode options =
  match options ≫= redirectCode with
  | Some c => if (c =? 0)%Z then 302%Z else c
  | None => 302%Z
  end.
Proof.
  unfold opt_redirectCode, Js.truthy_int.
  destruct (options ≫= redirectCode) as [c|]; [|done].
  by destruct (c =? 0)%Z.
Qed.

(** X4: on the server, in a request, a call outside route middleware
    with an internal target sends the HTTP redirect at once: to the
    base URL joined with the path (the resolved full path for a route
    object), with the given status or 302, after the [app:redirected]
    hook; the promise settles to [undefined]. *)
Theorem navigateTo_server_redirects app ev to0 options :
  server process = true ->
  ssr_event app = Some ev ->
  _processingMiddleware app = false ->
  isExternal_of hasProtocol (toPath_of (default_target to0)) options = false ->
  let to := default_target to0 in
  let fullPath :=
    match to with
    | LocString s => s
    | LocObject _ => if Js.truthy_string (resolve_fullPath to) then resolve_fullPath to else "/"
    end in
  let code :=
    match options ≫= redirectCode with
    | Some c => if (c =? 0)%Z then 302%Z else c
    | None => 302%Z
    end in
  nav (Some app) to0 options =
  ([CallHook "app:redirected"; SendRedirect ev (joinURL (baseURL app) fullPath) code],
   Returned (RedirectPromise None)).
Proof.
  intros Hserver Hev Hmw Hint. cbv zeta. rewrite <- opt_redirectCode_eq.
  unfold navigateTo, redirect.
  rewrite RouterProps.isProcessingMiddleware_eq, Hint, Hmw.
  run. cbn. rewrite Hserver, Hev, andb_false_r. cbn.
  by destruct (default_target to0).
Qed.

(** X5: on the server, in a request, an external target (allowed by
    [external: true]) is redirected to as it stands, without the base
    URL; inside route middleware the promise settles to [false], which
    aborts the navigation. *)
Theorem navigateTo_server_redirects_external app ev to0 options :
  server process = true ->
  ssr_event app = Some ev ->
  opt_external options = true ->
  parseURL_protocol (toPath_of (default_target to0)) <> "script:" ->
  nav (Some app) to0 options =
  ([CallHook "app:redirected";
    SendRedirect ev (toPath_of (default_target to0)) (opt_redirectCode options)],
   Returned (RedirectPromise (if _processingMiddleware app then Some false else None))).
Proof.
  intros Hserver Hev Hext Hscript. apply String.eqb_neq in Hscript.
  unfold navigateTo, redirect, isExternal_of.
  rewrite RouterProps.isProcessingMiddleware_eq, Hext, Hscript.
  run. cbn. rewrite Hserver, Hev, andb_false_r. cbn.
  by destruct (_processingMiddleware app).
Qed.

(** X6: on the server, in a request, a call inside route middleware
    with an internal target sends no redirect yet: it installs one
    [beforeEach] guard for the full path of the target (the string
    itself, or the resolved full path of a route object), which will
    redirect to the base URL joined with that path with the given
    status or 302, and returns the target. *)
Theorem navigateTo_server_middleware_defers app ev to0 options :
  server process = true ->
  client process = false ->
  ssr_event app = Some ev ->
  _processingMiddleware app = true ->
  isExternal_of hasProtocol (toPath_of (default_target to0)) options = false ->
  let to := default_target to0 in
  let fullPath :=
    match to with
    | LocString s => s
    | LocObject _ => if Js.truthy_string (resolve_fullPath to) then resolve_fullPath to else "/"
    end in
  let code :=
    match options ≫= redirectCode with
    | Some c => if (c =? 0)%Z then 302%Z else c
    | None => 302%Z
    end in
  nav (Some app) to0 options =
  ([RouterBeforeEach
      {| when_fullPath := fullPath;
         redirect_to := joinURL (baseURL app) fullPath;
         redirect_code := code |}],
   Returned (RawTarget to)).
Proof.
  intros Hserver Hclient Hev Hmw Hint. cbv zeta. rewrite <- opt_redirectCode_eq.
  unfold navigateTo.
  rewrite RouterProps.isProcessingMiddleware_eq, Hint, Hmw.
  run. cbn. rewrite Hserver, Hclient, Hev. cbn.
  by destruct (default_target to0).
Qed.

(** X7: without a server request (in the browser), an external target
    allowed by [external: true] is handed to [location]:
    [location.replace] with [replace: true], an assignment to
    [location.href] otherwise; the router is obtained but not called. *)
Theorem navigateTo_external_uses_location app to0 options :
  server process = false ->
  opt_external options = true ->
  parseURL_protocol (toPath_of (default_target to0)) <> "script:" ->
  nav (Some app) to0 options =
  ([if opt_replace options
    then LocationReplace (toPath_of (default_target to0))
    else LocationHref (toPath_of (default_target to0))],
   Returned ResolvedPromise).
Proof.
  intros Hserver Hext Hscript. apply String.eqb_neq in Hscript.
  unfold navigateTo, isExternal_of.
  rewrite RouterProps.isProcessingMiddleware_eq, Hext, Hscript.
  run. cbn. rewrite Hserver, andb_false_r. cbn.
  by destruct (opt_replace options).
Qed.

(** X8: without a server request, outside route middleware, an
    internal target goes to the router: [router.replace] with
    [replace: true], [router.push] otherwise, with the target as given
    (['/'] for a missing one). *)
Theorem navigateTo_internal_uses_router app to0 options :
  server process = false ->
  _processingMiddleware app = false ->
  isExternal_of hasProtocol (toPath_of (default_target to0)) options = false ->
  nav (Some app) to0 options =
  ([if opt_replace options
    then RouterReplace (default_target to0)
    else RouterPush (default_target to0)],
   Returned RouterPromise).
Proof.
  intros Hserver Hmw Hint.
  unfold navigateTo.
  rewrite RouterProps.isProcessingMiddleware_eq, Hint, Hmw.
  run. cbn. rewrite Hserver, andb_false_r. cbn.
  by destruct (opt_replace options).
Qed.

(** X9: [abortNavigation] calls nothing on the host, and its misuse
    error is thrown exactly in a development build with an instance at
    hand that is not processing middleware; without an instance (after
    an [await] in a middleware) the call counts as made inside one. *)
Theorem abortNavigation_misuse_iff instance err :
  trace (abortNavigation process instance err) = []
  /\ (outcome (abortNavigation process instance err) = Thrown OnlyInsideMiddleware
      <-> dev process = true
          /\ exists app, instance = Some app /\ _processingMiddleware app = false).
Proof.
  unfold abortNavigation. rewrite RouterProps.isProcessingMiddleware_eq.
  destruct (dev process), instance as [app|]; run; cbn;
    try destruct (_processingMiddleware app) eqn:Hmw; cbn;
    destruct err as [a|]; try destruct (truthy_arg a); cbn;
    (split; [reflexivity|]); split;
    try (intros H; discriminate H);
    try (intros [H _]; discriminate H);
    try (intros [_ (app' & H & H')]; try discriminate H; congruence);
    try (intros _; split; [reflexivity|]; by exists app).
Qed.

End Navigation.

(** *** Registrations one after the other *)

Section Registration.

Variable app : NuxtApp.

Local Abbreviation store := (_middleware app).


(** X11: two global registrations in a row leave the global list with
    both functions at its end, in the order of the calls. *)
Theorem addRouteMiddleware_global_in_order f g m1 o1 m2 o2 :
  exists s1 s2,
    addRouteMiddleware (Some app) (ByFunction f) m1 o1 = ([], Returned s1)
    /\ addRouteMiddleware (Some (with_middleware app s1)) (ByFunction g) m2 o2
         = ([], Returned s2)
    /\ mw_global s2 = mw_global store ++ [f; g]
    /\ mw_named s2 = mw_named store.
Proof.
  exists (push_global f store), (push_global g (push_global f store)).
  unfold addRouteMiddleware. run. cbn. rewrite !orb_true_r.
  split; [done|]. split; [done|]. split; [|done].
  by rewrite <- app_assoc.
Qed.

(** X12: of two registrations under one name (other than
    ['__proto__'], on a named object that still has [Object.prototype]
    as prototype) the later one is kept: the store ends as if only the
    second call had been made. *)
Theorem addRouteMiddleware_named_last_wins n f g o1 o2 :
  Js.truthy_flag (global o1) = false ->
  Js.truthy_flag (global o2) = false ->
  n <> "__proto__" ->
  mw_named_proto store = ObjectPrototype ->
  exists s1 s2,
    addRouteMiddleware (Some app) (ByName n) (Some f) o1 = ([], Returned s1)
    /\ addRouteMiddleware (Some (with_middleware app s1)) (ByName n) (Some g) o2
         = ([], Returned s2)
    /\ addRouteMiddleware (Some app) (ByName n) (Some g) o2 = ([], Returned s2)
    /\ mw_named s2 !! n = Some g
    /\ mw_global s2 = mw_global store.
Proof.
  intros H1 H2 Hn Hproto.
  exists (define_own n f store), (define_own n g store).
  unfold addRouteMiddleware.
  cbv [mbind mret eff_bind eff_ret bind ret useNuxtApp is_name negb].
  cbn [with_middleware _middleware].
  rewrite H1, H2. cbn [orb].
  rewrite (RouterProps.set_named_ordinary n f store Hn Hproto).
  rewrite (RouterProps.set_named_ordinary n g store Hn Hproto).
  rewrite (RouterProps.set_named_ordinary n g (define_own n f store) Hn Hproto).
  split; [done|]. split; [|split; [done|]].
  - unfold define_own. cbn. by rewrite insert_insert_eq.
  - split; [apply lookup_insert_eq|done].
Qed.

End Registration.

(** *** setPageLayout *)

Section Layout.

Variable process : Process.
Variable vue : Vue.
Variable hydration : Hydration.

(** X13: outside route middleware, [setPageLayout] sets [meta.layout]
    of the current route (the one [useRoute] gives) and leaves the
    other route object alone; it writes the [_layout] state on the
    server only, and installs a [beforeResolve] guard only on the
    server or while hydrating. *)
Theorem setPageLayout_outside_middleware app layout st :
  _processingMiddleware app = false ->
  let current :=
    if in_component vue && route_provided vue then InjectedRoute else AppRoute in
  exists t st',
    setPageLayout process (Some app) vue hydration layout st = (t, Returned st')
    /\ meta_layout current st' = Some layout
    /\ (forall r, r <> current -> meta_layout r st' = meta_layout r st)
    /\ state_layout st' = (if server process then Some layout else state_layout st)
    /\ beforeResolve_layouts st' =
         beforeResolve_layouts st
         ++ (if server process || isHydrating hydration then [layout] else []).
Proof.
  intros Hmw. cbv zeta.
  unfold setPageLayout, useRoute, layout_value, set_layout_value,
    add_beforeResolve, useRouter, useNuxtApp.
  rewrite !RouterProps.isProcessingMiddleware_eq, Hmw.
  destruct (server process), (dev process), (in_component vue), (route_provided vue),
    (isHydrating hydration), (serverRendered hydration);
    run; cbn;
    repeat match goal with
           | |- context [differs ?v ?l] => destruct (differs v l); cbn
           end;
    eexists _, _; (split; [reflexivity|]); cbn;
    rewrite ?app_nil_r;
    (split; [reflexivity|]); (split; [|split; reflexivity]);
    intros [] Hr; done.
Qed.

(** X14: inside route middleware, [setPageLayout] leaves the current
    route as it is and installs one [beforeResolve] guard, which gives
    the layout to the route being navigated to. *)
Theorem setPageLayout_inside_middleware app layout st :
  _processingMiddleware app = true ->
  exists t st',
    setPageLayout process (Some app) vue hydration layout st = (t, Returned st')
    /\ (forall r, meta_layout r st' = meta_layout r st)
    /\ state_layout st' = (if server process then Some layout else state_layout st)
    /\ beforeResolve_layouts st' = beforeResolve_layouts st ++ [layout].
Proof.
  intros Hmw.
  unfold setPageLayout, useRoute, layout_value, set_layout_value,
    add_beforeResolve, useRouter, useNuxtApp.
  rewrite !RouterProps.isProcessingMiddleware_eq, Hmw.
  destruct (server process), (dev process), (in_component vue),
    (isHydrating hydration), (serverRendered hydration);
    run; cbn;
    repeat match goal with
           | |- context [differs ?v ?l] => destruct (differs v l); cbn
           end;
    eexists _, _; (split; [reflexivity|]); cbn;
    (split; [|split; reflexivity]); by intros [].
Qed.

(** X15: [setPageLayout] throws exactly when no application instance
    is at hand. Its calls on the host are its two warnings, which a
    production build does not have, and the [beforeResolve] guard on
    the router, installed exactly when an instance is at hand and the
    call is made inside route middleware, on the server, or while
    hydrating. *)
Theorem setPageLayout_needs_instance instance layout st :
  ((exists e, outcome (setPageLayout process instance vue hydration layout st) = Thrown e)
   <-> instance = None)
  /\ (forall a, In a (trace (setPageLayout process instance vue hydration layout st)) ->
        (exists msg, a = ConsoleWarn msg) \/ a = RouterBeforeResolve layout)
  /\ (In (RouterBeforeResolve layout)
         (trace (setPageLayout process instance vue hydration layout st))
      <-> exists app, instance = Some app
                      /\ (_processingMiddleware app || server process
                          || isHydrating hydration) = true)
  /\ (dev process = false ->
      forall a, In a (trace (setPageLayout process instance vue hydration layout st)) ->
        a = RouterBeforeResolve layout).
Proof.
  unfold setPageLayout, useRoute, layout_value, set_layout_value,
    add_beforeResolve, useRouter, useNuxtApp.
  rewrite !RouterProps.isProcessingMiddleware_eq.
  destruct instance as [app|];
    [destruct (_processingMiddleware app) eqn:Hmw|];
    destruct (server process), (dev process), (in_component vue), (route_provided vue),
      (isHydrating hydration), (serverRendered hydration);
    run; cbn;
    repeat match goal with
           | |- context [differs ?v ?l] => destruct (differs v l); cbn
           end;
    (split; [split; [intros [e He]; (discriminate He || reflexivity)
                    | intros H; (discriminate H || eauto)]|]);
    (split; [intros a Ha; cbn in Ha;
             repeat (destruct Ha as [<-|Ha]; [eauto|]); destruct Ha|]);
    (split; [|intros H a Ha; try discriminate H; cbn in Ha;
              repeat (destruct Ha as [<-|Ha]; [reflexivity|]); destruct Ha]);
    (split;
     [ intros Ha; cbn in Ha;
       repeat (destruct Ha as [Ha|Ha]; [try discriminate Ha|]);
       try destruct Ha;
       exists app; rewrite Hmw; (split; reflexivity)
     | intros (app' & Happ & Hcond); try discriminate Happ;
       injection Happ as <-; rewrite Hmw in Hcond; try discriminate Hcond;
       cbn; tauto ]).
Qed.

End Layout.

(** *** The statements above at concrete inputs *)

Import Examples.

Lemma navigateTo_throws_before_acting_witness :
  trace (nav browser (Some (Examples.app false None))
           (TRaw (LocString "https://nuxt.com")) None) = [].
Proof.
  exact (navigateTo_throws_before_acting
           Ufo.hasProtocol Ufo.parseURL_protocol Ufo.joinURL resolve_fullPath
           browser (Some (Examples.app false None))
           (TRaw (LocString "https://nuxt.com")) None ExternalNotAllowed eq_refl).
Defined.

Lemma navigateTo_external_or_router_witness :
  is_router_call (LocationHref "https://nuxt.com") = false.
Proof.
  refine (proj1 (navigateTo_external_or_router
            Ufo.hasProtocol Ufo.parseURL_protocol Ufo.joinURL resolve_fullPath
            browser (Some (Examples.app false None))
            (TRaw (LocString "https://nuxt.com")) external_ok
            (LocationHref "https://nuxt.com") _) _).
  - left. reflexivity.
  - reflexivity.
Defined.

Lemma navigateTo_server_redirects_witness :
  nav node (Some (Examples.app false request)) (TRaw (LocString "/login"))
    (Some {| replace := None; redirectCode := Some 301%Z; external := None |})
  = ([CallHook "app:redirected"; SendRedirect (Event 0) "/login" 301],
     Returned (RedirectPromise None)).
Proof.
  refine (navigateTo_server_redirects
            Ufo.hasProtocol Ufo.parseURL_protocol Ufo.joinURL resolve_fullPath
            node (Examples.app false request) (Event 0) (TRaw (LocString "/login"))
            (Some {| replace := None; redirectCode := Some 301%Z; external := None |})
            _ _ _ _); reflexivity.
Defined.

Lemma navigateTo_server_redirects_external_witness :
  nav node (Some (Examples.app true request)) (TRaw (LocString "https://nuxt.com")) external_ok
  = ([CallHook "app:redirected"; SendRedirect (Event 0) "https://nuxt.com" 302],
     Returned (RedirectPromise (Some false))).
Proof.
  refine (navigateTo_server_redirects_external
            Ufo.hasProtocol Ufo.parseURL_protocol Ufo.joinURL resolve_fullPath
            node (Examples.app true request) (Event 0)
            (TRaw (LocString "https://nuxt.com")) external_ok _ _ _ _);
    try reflexivity. discriminate.
Defined.

Lemma navigateTo_server_middleware_defers_witness :
  nav node (Some (Examples.app true request)) (TRaw (LocString "/login")) None
  = ([RouterBeforeEach
        {| when_fullPath := "/login"; redirect_to := "/login"; redirect_code := 302 |}],
     Returned (RawTarget (LocString "/login"))).
Proof.
  exact (navigateTo_server_middleware_defers
           Ufo.hasProtocol Ufo.parseURL_protocol Ufo.joinURL resolve_fullPath
           node (Examples.app true request) (Event 0) (TRaw (LocString "/login")) None
           eq_refl eq_refl eq_refl eq_refl eq_refl).
Defined.

Lemma navigateTo_external_uses_location_witness :
  nav browser (Some (Examples.app false None)) (TRaw (LocString "https://nuxt.com")) external_ok
  = ([LocationHref "https://nuxt.com"], Returned ResolvedPromise).
Proof.
  refine (navigateTo_external_uses_location
            Ufo.hasProtocol Ufo.parseURL_protocol Ufo.joinURL resolve_fullPath
            browser (Examples.app false None)
            (TRaw (LocString "https://nuxt.com")) external_ok _ _ _);
    try reflexivity. discriminate.
Defined.

Lemma navigateTo_internal_uses_router_witness :
  nav browser (Some (Examples.app false None)) TNull
    (Some {| replace := Some true; redirectCode := None; external := None |})
  = ([RouterReplace (LocString "/")], Returned RouterPromise).
Proof.
  refine (navigateTo_internal_uses_router
            Ufo.hasProtocol Ufo.parseURL_protocol Ufo.joinURL resolve_fullPath
            browser (Examples.app false None) TNull
            (Some {| replace := Some true; redirectCode := None; external := None |})
            _ _ _); reflexivity.
Defined.

Lemma addRouteMiddleware_named_last_wins_witness :
  exists s2,
    addRouteMiddleware (Some (Examples.app false None)) (ByName "auth")
      (Some (Middleware 9)) {| global := None |} = ([], Returned s2)
    /\ mw_named s2 !! "auth" = Some (Middleware 9).
Proof.
  destruct (addRouteMiddleware_named_last_wins (Examples.app false None)
              "auth" (Middleware 8) (Middleware 9) {| global := None |} {| global := None |}
              eq_refl eq_refl) as (s1 & s2 & _ & _ & Hrun & Hnamed & _);
    [discriminate|reflexivity|].
  exists s2. split; [exact Hrun|exact Hnamed].
Defined.

Lemma setPageLayout_outside_middleware_witness :
  exists t st',
    setPageLayout browser (Some (Examples.app false None)) in_page settled "admin" layouts0
      = (t, Returned st')
    /\ meta_layout InjectedRoute st' = Some "admin".
Proof.
  destruct (setPageLayout_outside_middleware browser in_page settled
              (Examples.app false None) "admin" layouts0 eq_refl)
    as (t & st' & Hrun & Hmeta & _).
  exists t, st'. split; [exact Hrun|exact Hmeta].
Defined.

Lemma setPageLayout_inside_middleware_witness :
  exists t st',
    setPageLayout browser (Some (Examples.app true None)) in_page settled "admin" layouts0
      = (t, Returned st')
    /\ beforeResolve_layouts st' = ["admin"].
Proof.
  destruct (setPageLayout_inside_middleware browser in_page settled
              (Examples.app true None) "admin" layouts0 eq_refl)
    as (t & st' & Hrun & _ & _ & Hguards).
  exists t, st'. split; [exact Hrun|exact Hguards].
Defined.

End RouterExtra.

(** ** Further properties of the imports module *)

Module ImportsExtra.
Import Imports.

Lemma startsWith_spec p : forall s,
  Js.startsWith p s = true <-> exists r, s = p +:+ r.
Proof.
  induction p as [|a p IH]; intros s; simpl.
  - split; [|done]. intros _. by exists s.
  - destruct s as [|b s].
    + split; [done|]. intros [r Hr]. by rewrite ImportsProps.append_cons in Hr.
    + destruct (Ascii.eqb_spec a b) as [->|Hne].
      * rewrite IH. split; intros [r Hr]; exists r.
        -- by rewrite ImportsProps.append_cons, Hr.
        -- rewrite ImportsProps.append_cons in Hr. by inversion Hr.
      * split; [done|]. intros [r Hr].
        rewrite ImportsProps.append_cons in Hr. inversion Hr. congruence.
Qed.

Section Setup.

Variable resolve : list string -> string.
Variable normalize : string -> string.
Variable hook_imports_dirs : list string -> list string.
Variable hook_imports_extend : list Import -> list Import.
Variable scanDirExports : list string -> list Import.
Variable templates : list ResolvedNuxtTemplate.
Variable cfg : Config.

Local Abbreviation dirs := (composablesDirs resolve normalize hook_imports_dirs cfg).
Local Abbreviation regenerate :=
  (regenerateImports resolve normalize hook_imports_dirs hook_imports_extend
     scanDirExports templates cfg).
Local Abbreviation watch :=
  (builder_watch resolve normalize hook_imports_dirs hook_imports_extend
     scanDirExports templates cfg).

(** *** The watcher *)

Lemma watched_iff path :
  existsb (fun dir => String.eqb dir path || Js.startsWith (dir +:+ "/") path) dirs = true
  <-> exists dir, In dir dirs /\ (path = dir \/ exists rest, path = dir +:+ "/" +:+ rest).
Proof.
  rewrite existsb_exists.
  split; intros (dir & Hin & H); exists dir; (split; [done|]).
  - apply orb_true_iff in H as [H|H].
    + left. symmetry. by apply String.eqb_eq.
    + right. apply startsWith_spec in H as [rest ->]. exists rest.
      by rewrite ImportsProps.append_assoc.
  - apply orb_true_iff. destruct H as [->|[rest ->]].
    + left. apply String.eqb_refl.
    + right. apply startsWith_spec. exists rest.
      by rewrite ImportsProps.append_assoc.
Qed.

Lemma composablesDirs_without_scan : scan cfg = false -> dirs = [].
Proof. unfold composablesDirs. by intros ->. Qed.

(** Both handlers of one event, evaluated. *)
Lemma builder_watch_run event relativePath st :
  let path := resolve [nuxt_srcDir cfg; relativePath] in
  let restart := is_dir_event event && bool_decide (path ∈ dirs) in
  let watched :=
    existsb (fun dir => String.eqb dir path || Js.startsWith (dir +:+ "/") path) dirs in
  watch event relativePath st =
  (tt,
   (if watched then final_imports (regenerate st) else st),
   (if restart
    then [LoggedInfo relativePath (match event with addDir => true | _ => false end);
          Restarted]
    else [])
   ++ (if watched then events (regenerate st) else [])).
Proof.
  cbv zeta. unfold builder_watch, watch_restart, watch_regenerate.
  destruct (scan cfg) eqn:Hscan.
  - cbn [andb].
    destruct (is_dir_event event); cbn [negb andb];
      [destruct (bool_decide _)|];
      destruct (existsb _ _);
      cbv [mbind mret m_bind m_ret bind ret emit];
      try destruct (regenerate st) as [[[] st'] t]; reflexivity.
  - rewrite (composablesDirs_without_scan Hscan). cbn.
    rewrite andb_false_r. reflexivity.
Qed.

Lemma regenerate_events st :
  In Cleared (events (regenerate st)) /\ ~ In Restarted (events (regenerate st)).
Proof.
  rewrite ImportsProps.regenerateImports_run. unfold events. cbn [snd].
  split; [by left|].
  destruct (scan cfg); cbn; intros H;
    repeat (destruct H as [H|H]; [discriminate H|]); destruct H.
Qed.

(** X16: a [builder:watch] event, of whatever kind, regenerates the
    imports exactly when its path is one of the composables directories
    or lies below one (the directory name followed by a slash); a path
    that merely begins like a directory name does not count, and then
    the event changes nothing. *)
Theorem builder_watch_regenerates_iff event relativePath st :
  let path := resolve [nuxt_srcDir cfg; relativePath] in
  let below :=
    exists dir, In dir dirs /\ (path = dir \/ exists rest, path = dir +:+ "/" +:+ rest) in
  (In Cleared (events (watch event relativePath st)) <-> below)
  /\ (below -> final_imports (watch event relativePath st) = final_imports (regenerate st))
  /\ (~ below -> watch event relativePath st = (tt, st, [])).
Proof.
  cbv zeta. rewrite builder_watch_run. cbv zeta.
  rewrite <- watched_iff.
  destruct (existsb _ dirs) eqn:Hw.
  - split; [|split]; [|done|done].
    split; [done|]. intros _. unfold events at 1. cbn [snd].
    apply in_or_app. right. apply regenerate_events.
  - assert (Hno : bool_decide (resolve [nuxt_srcDir cfg; relativePath] ∈ dirs) = false).
    { apply bool_decide_eq_false. intros Hin.
      apply (ImportsProps.watched_directory resolve normalize hook_imports_dirs cfg) in Hin.
      congruence. }
    rewrite Hno, andb_false_r. split; [|split]; [|done|done].
    split; [|done]. unfold events. cbn. done.
Qed.

(** X17: the restart is requested exactly for an [addDir] or
    [unlinkDir] event whose path is one of the composables directories
    itself; a file event, or a directory below one of them, never
    restarts. *)
Theorem builder_watch_restarts_iff event relativePath st :
  In Restarted (events (watch event relativePath st))
  <-> is_dir_event event = true /\ resolve [nuxt_srcDir cfg; relativePath] ∈ dirs.
Proof.
  rewrite builder_watch_run. cbv zeta. unfold events at 1. cbn [snd].
  rewrite in_app_iff.
  destruct (is_dir_event event); cbn [andb].
  - destruct (bool_decide _) eqn:Hin.
    + apply bool_decide_eq_true in Hin. split; [done|]. intros _. left. cbn. tauto.
    + apply bool_decide_eq_false in Hin. split; [|tauto].
      intros [[]|H]. destruct (existsb _ _); [|done].
      by apply regenerate_events in H.
  - split; [|by intros [? _]].
    intros [[]|H]. destruct (existsb _ _); [|done].
    by apply regenerate_events in H.
Qed.

(** X18: with [scan] off the module watches nothing: no event restarts
    or regenerates, whatever its kind and path. *)
Theorem builder_watch_without_scan event relativePath st :
  scan cfg = false ->
  builder_watch resolve normalize hook_imports_dirs hook_imports_extend
    scanDirExports templates cfg event relativePath st = (tt, st, []).
Proof.
  intros Hscan. rewrite builder_watch_run. cbv zeta.
  rewrite (composablesDirs_without_scan Hscan). cbn.
  by rewrite andb_false_r.
Qed.

(** X19: [regenerateImports] does not depend on the list it finds:
    imports of an earlier run survive only if the scan or the hook
    brings them again. *)
Theorem regenerateImports_discards_old st1 st2 :
  regenerate st1 = regenerate st2.
Proof. by rewrite !ImportsProps.regenerateImports_run. Qed.

(** *** Directories of the layers *)

(** X20: with scanning on, and [imports:dirs] handlers that drop
    nothing, every layer that has not set [imports.scan] to [false]
    has its [composables] and [utils] directories watched and scanned,
    its [shared/utils] and [shared/types] under compatibility version
    4, and each non-empty entry of its [imports.dirs]. *)
Theorem composablesDirs_of_layer layer :
  scan cfg = true ->
  In layer (_layers cfg) ->
  imports layer ≫= layer_scan <> Some false ->
  (forall l d, In d l -> In d (hook_imports_dirs l)) ->
  In (normalize (resolve [srcDir layer; "composables"]))
     (composablesDirs resolve normalize hook_imports_dirs cfg)
  /\ In (normalize (resolve [srcDir layer; "utils"])) dirs
  /\ (isNuxtV4 cfg = true ->
      In (normalize (resolve [rootDir layer; "shared"; "utils"])) dirs
      /\ In (normalize (resolve [rootDir layer; "shared"; "types"])) dirs)
  /\ (forall extra d, imports layer ≫= layer_dirs = Some extra -> In d extra -> d <> "" ->
        In (normalize (resolve [srcDir layer; d])) dirs).
Proof.
  intros Hscan Hlayer Hon Hhook.
  assert (Hin : forall d, In d (dirs_of_layer resolve cfg layer) -> In (normalize d) dirs).
  { intros d Hd. unfold composablesDirs. rewrite Hscan.
    apply in_map, Hhook, in_flat_map. by exists layer. }
  unfold dirs_of_layer in Hin.
  rewrite bool_decide_eq_false_2 in Hin by done.
  split; [apply Hin; cbn; tauto|]. split; [apply Hin; cbn; tauto|]. split.
  - intros Hv4. rewrite Hv4 in Hin. split; apply Hin; cbn; tauto.
  - intros extra d Hextra Hd Hne. apply Hin.
    apply in_or_app. right. apply in_or_app. right.
    apply (in_map (fun dir => resolve [srcDir layer; dir])), filter_In. rewrite Hextra. cbn. split; [done|].
    by destruct d.
Qed.

(** X21: a layer that sets [imports.scan] to [false] contributes no
    directory: the list given to the [imports:dirs] handlers is the one
    of the other layers. *)
Theorem composablesDirs_skips_disabled_layers :
  flat_map (dirs_of_layer resolve cfg) (_layers cfg) =
  flat_map (dirs_of_layer resolve cfg)
    (List.filter (fun layer => negb (bool_decide (imports layer ≫= layer_scan = Some false)))
       (_layers cfg))
  /\ (forall layer, imports layer ≫= layer_scan = Some false ->
        dirs_of_layer resolve cfg layer = []).
Proof.
  split.
  - induction (_layers cfg) as [|layer layers IH]; [done|]. cbn.
    unfold dirs_of_layer at 1. destruct (bool_decide _) eqn:Hoff; cbn.
    + exact IH.
    + rewrite <- IH. unfold dirs_of_layer at 2. by rewrite Hoff.
  - intros layer Hoff. unfold dirs_of_layer. by rewrite bool_decide_eq_true_2.
Qed.

End Setup.

(** *** Priorities of the layers *)

Section Priorities.

Variable cfg : Config.

Local Abbreviation longer_first :=
  (fun a b : string * Z => String.length b.1 <= String.length a.1).

Lemma insert_by_length_perm x l : Permutation (insert_by_length x l) (x :: l).
Proof.
  induction l as [|y l IH]; [done|]. simpl.
  destruct (_ <? _)%nat; [done|].
  rewrite IH. apply perm_swap.
Qed.

Lemma insert_by_length_sorted x l :
  StronglySorted longer_first l -> StronglySorted longer_first (insert_by_length x l).
Proof.
  induction 1 as [|y l Hl IH Hy]; simpl.
  - repeat constructor.
  - destruct (Nat.ltb_spec (String.length y.1) (String.length x.1)) as [Hlt|Hge].
    + constructor; [by constructor|].
      constructor; [lia|].
      eapply Forall_impl; [exact Hy|]. intros z Hz. simpl in Hz. lia.
    + constructor; [done|].
      rewrite insert_by_length_perm. by constructor.
Qed.

Lemma sort_by_length_from acc l :
  StronglySorted longer_first acc ->
  StronglySorted longer_first (foldl (fun acc x => insert_by_length x acc) acc l)
  /\ Permutation (foldl (fun acc x => insert_by_length x acc) acc l) (acc ++ l).
Proof.
  revert acc. induction l as [|x l IH]; intros acc Hacc; simpl.
  - by rewrite app_nil_r.
  - destruct (IH _ (insert_by_length_sorted x _ Hacc)) as [Hs Hp].
    split; [done|]. rewrite Hp, insert_by_length_perm.
    by rewrite <- Permutation_middle.
Qed.

Lemma priorities_perm :
  StronglySorted longer_first (priorities cfg)
  /\ Permutation (priorities cfg)
       (imap (fun i layer => (srcDir layer, (- Z.of_nat i)%Z)) (_layers cfg)).
Proof.
  unfold priorities, sort_by_length.
  by apply (sort_by_length_from []); constructor.
Qed.

Lemma priorities_mem dir p :
  In (dir, p) (priorities cfg) <->
  exists k layer, _layers cfg !! k = Some layer
                  /\ dir = srcDir layer /\ p = (- Z.of_nat k)%Z.
Proof.
  destruct priorities_perm as [_ Hp].
  rewrite <- list_elem_of_In, Hp, elem_of_lookup_imap. split.
  - intros (k & layer & Heq & Hk). exists k, layer. by inversion Heq.
  - intros (k & layer & Hk & -> & ->). by exists k, layer.
Qed.

(** X22: the priorities are the layers' source directories, each with
    minus the position of its layer, arranged so that a longer
    directory name always comes before a shorter one. *)
Theorem priorities_sorted :
  StronglySorted longer_first (priorities cfg)
  /\ (forall dir p,
        In (dir, p) (priorities cfg) <->
        exists k layer, _layers cfg !! k = Some layer
                        /\ dir = srcDir layer /\ p = (- Z.of_nat k)%Z)
  /\ length (priorities cfg) = length (_layers cfg).
Proof.
  destruct priorities_perm as [Hs Hp].
  split; [done|]. split; [apply priorities_mem|].
  by rewrite Hp, length_imap.
Qed.

Lemma find_first {A} (f : A -> bool) l x :
  List.find f l = Some x ->
  exists l1 l2, l = l1 ++ x :: l2 /\ f x = true /\ Forall (fun y => f y = false) l1.
Proof.
  induction l as [|y l IH]; [done|]. simpl.
  destruct (f y) eqn:Hy.
  - intros [= ->]. by exists [], l.
  - intros Hfind. destruct (IH Hfind) as (l1 & l2 & -> & Hx & Hl1).
    exists (y :: l1), l2. split; [done|]. split; [done|]. by constructor.
Qed.

(** X23: a scanned import that comes with a priority keeps it; one
    without (or with priority 0) gets the priority of the layer whose
    source directory is the longest one its file path begins with, and
    stays without one when its path lies in no layer. Name and source
    are not touched. *)
Theorem with_priority_longest_directory i :
  name (with_priority cfg i) = name i
  /\ from (with_priority cfg i) = from i
  /\ (Js.truthy_int (priority i) = true -> priority (with_priority cfg i) = priority i)
  /\ (Js.truthy_int (priority i) = false ->
      match priority (with_priority cfg i) with
      | Some p =>
          exists k layer,
            _layers cfg !! k = Some layer
            /\ p = (- Z.of_nat k)%Z
            /\ (exists rest, from i = srcDir layer +:+ rest)
            /\ (forall layer', In layer' (_layers cfg) ->
                  (exists rest, from i = srcDir layer' +:+ rest) ->
                  String.length (srcDir layer') <= String.length (srcDir layer))
      | None =>
          forall layer, In layer (_layers cfg) ->
            ~ exists rest, from i = srcDir layer +:+ rest
      end).
Proof.
  destruct priorities_perm as [Hsorted _].
  pose proof priorities_mem as Hmem.
  split; [done|]. split; [done|]. unfold with_priority. cbn [priority].
  split; [by intros ->|]. intros ->.
  destruct (List.find _ (priorities cfg)) as [[dir p]|] eqn:Hfind; cbn.
  - destruct (find_first _ _ _ Hfind) as (l1 & l2 & Hsplit & Hdir & Hl1).
    cbn in Hdir. apply startsWith_spec in Hdir.
    assert (Hin : In (dir, p) (priorities cfg)).
    { rewrite Hsplit. apply in_or_app. right. by left. }
    apply Hmem in Hin as (k & layer & Hk & -> & ->).
    exists k, layer. split; [done|]. split; [done|]. split; [done|].
    intros layer' Hlayer' Hprefix.
    apply list_elem_of_In, list_elem_of_lookup in Hlayer' as [k' Hk'].
    assert (Hin' : In (srcDir layer', (- Z.of_nat k')%Z) (priorities cfg))
      by (apply Hmem; eauto).
    rewrite Hsplit in Hin', Hsorted.
    apply in_app_or in Hin' as [Hin'|[Hin'|Hin']].
    + rewrite Forall_forall in Hl1. apply list_elem_of_In, Hl1 in Hin'. cbn in Hin'.
      apply startsWith_spec in Hprefix. congruence.
    + by inversion Hin'.
    + apply StronglySorted_app_1_r, StronglySorted_cons in Hsorted as [Hall _].
      rewrite Forall_forall in Hall. apply list_elem_of_In, Hall in Hin'. exact Hin'.
  - intros layer Hlayer Hprefix.
    apply list_elem_of_In, list_elem_of_lookup in Hlayer as [k Hk].
    assert (Hin : In (srcDir layer, (- Z.of_nat k)%Z) (priorities cfg))
      by (apply Hmem; eauto).
    apply (find_none _ _ Hfind) in Hin. cbn in Hin.
    apply startsWith_spec in Hprefix. congruence.
Qed.

End Priorities.

(** *** Template file names *)

(** X24: a template whose file name holds no slash is no imports
    template: the expression asks for the slash in front of
    [imports.]. *)
Theorem isImportsTemplate_needs_slash t :
  (forall p r, filename t <> p +:+ "/" +:+ r) ->
  isImportsTemplate t = false.
Proof.
  intros Hno. destruct (isImportsTemplate t) eqn:Ht; [|done].
  apply ImportsProps.isImportsTemplate_spec in Ht as [[p Hp]|[p Hp]].
  - by destruct (Hno p "imports.d.ts").
  - by destruct (Hno p "imports.mjs").
Qed.

(** *** The cache of resolved import paths *)

Lemma unique_from (seen l : list string) x :
  x ∈ foldl (fun seen x => if bool_decide (x ∈ seen) then seen else seen ++ [x]) seen l
  <-> x ∈ seen \/ x ∈ l.
Proof.
  revert seen. induction l as [|y l IH]; intros seen; simpl.
  - rewrite elem_of_nil. tauto.
  - rewrite IH, elem_of_cons. case_bool_decide as Hy.
    + split; [tauto|]. intros [?|[->|?]]; tauto.
    + rewrite elem_of_app, list_elem_of_singleton. tauto.
Qed.

Lemma unique_spec l x : x ∈ unique l <-> x ∈ l.
Proof. unfold unique. rewrite unique_from, elem_of_nil. tauto. Qed.

Section Declarations.

Variable resolveAlias : string -> string.
Variable isAbsolute : string -> bool.
Variable tryResolveModule : string -> option string.
Variable parseNodeModulePath : string -> option string * option string.
Variable lookupNodeModuleSubpath : string -> option string.
Variable relative : string -> string -> string.
Variable join : list string -> string.
Variable is_file : string -> bool.
Variable strip_extension : string -> string.
Variable dependencies : option (gset string).
Variable buildDir : string.

Local Abbreviation path_of :=
  (resolved_path resolveAlias isAbsolute tryResolveModule parseNodeModulePath
     lookupNodeModuleSubpath relative join is_file strip_extension dependencies buildDir).
Local Abbreviation step :=
  (cache_one resolveAlias isAbsolute tryResolveModule parseNodeModulePath
     lookupNodeModuleSubpath relative join is_file strip_extension dependencies buildDir).
Local Abbreviation cache :=
  (cacheImportPaths resolveAlias isAbsolute tryResolveModule parseNodeModulePath
     lookupNodeModuleSubpath relative join is_file strip_extension dependencies buildDir).
Local Abbreviation dependency := (is_dependency dependencies).

Lemma cache_one_cases (m : gmap string string) from :
  (step m from = m /\ (is_Some (m !! from) \/ dependency from = true))
  \/ (step m from = <[from := path_of from]> m
      /\ m !! from = None /\ dependency from = false).
Proof.
  unfold cache_one. case_bool_decide as Hhas; cbn.
  - left. tauto.
  - apply eq_None_not_Some in Hhas.
    destruct (dependency from); [left|right]; tauto.
Qed.

Lemma cache_fold_keeps l : forall (m : gmap string string) k v,
  m !! k = Some v -> foldl step m l !! k = Some v.
Proof.
  induction l as [|x l IH]; intros m k v Hk; [done|]. simpl. apply IH.
  destruct (cache_one_cases m x) as [[-> _]|(-> & Hx & _)]; [done|].
  rewrite lookup_insert_ne; [done|congruence].
Qed.

Lemma cache_fold_covers l : forall (m : gmap string string) x,
  x ∈ l -> is_Some (foldl step m l !! x) \/ dependency x = true.
Proof.
  induction l as [|y l IH]; intros m x Hx; [by apply elem_of_nil in Hx|].
  apply elem_of_cons in Hx as [->|Hx]; simpl; [|by apply IH].
  destruct (cache_one_cases m y) as [[-> [[v Hv]|Hdep]]|(-> & _ & _)].
  - left. exists v. by apply cache_fold_keeps.
  - by right.
  - left. eexists. apply cache_fold_keeps, lookup_insert_eq.
Qed.

Lemma cache_fold_new l : forall (m : gmap string string) k v,
  m !! k = None -> foldl step m l !! k = Some v ->
  v = path_of k /\ k ∈ l /\ dependency k = false.
Proof.
  induction l as [|x l IH]; intros m k v Hk Hv; simpl in Hv; [congruence|].
  destruct (cache_one_cases m x) as [[Hsame _]|(Hset & Hx & Hdep)].
  - rewrite Hsame in Hv. destruct (IH _ _ _ Hk Hv) as (? & ? & ?).
    split; [done|]. split; [by apply list_elem_of_further|done].
  - rewrite Hset in Hv. destruct (decide (x = k)) as [->|Hne].
    + rewrite (cache_fold_keeps l _ k (path_of k)) in Hv by apply lookup_insert_eq.
      split; [congruence|]. split; [apply list_elem_of_here|done].
    + assert (Hk' : <[x := path_of x]> m !! k = None) by by rewrite lookup_insert_ne.
      destruct (IH _ _ _ Hk' Hv) as (? & ? & ?).
      split; [done|]. split; [by apply list_elem_of_further|done].
Qed.

Lemma cache_fold_settled l : forall (m : gmap string string),
  (forall x, x ∈ l -> is_Some (m !! x) \/ dependency x = true) ->
  foldl step m l = m.
Proof.
  induction l as [|x l IH]; intros m Hall; [done|]. simpl.
  assert (Hx : step m x = m).
  { destruct (cache_one_cases m x) as [[? _]|(_ & Hnone & Hdep)]; [done|].
    destruct (Hall x) as [[v Hv]|Hd]; [apply list_elem_of_here|congruence|congruence]. }
  rewrite Hx. apply IH. intros y Hy. apply Hall. by apply list_elem_of_further.
Qed.

(** X25: [cacheImportPaths] only adds to the map: a source that has a
    path keeps it, so a path is worked out once per source and never
    changes afterwards. *)
Theorem cacheImportPaths_keeps imports (m : gmap string string) k v :
  m !! k = Some v ->
  cacheImportPaths resolveAlias isAbsolute tryResolveModule parseNodeModulePath
    lookupNodeModuleSubpath relative join is_file strip_extension dependencies buildDir
    imports m !! k = Some v.
Proof. apply cache_fold_keeps. Qed.

(** X26: after [cacheImportPaths], every source of the given imports
    has a path in the map unless it is one of the project's installed
    dependencies; an entry that was not there before belongs to one of
    the imports, is no dependency, and holds the path resolved for
    it. *)
Theorem cacheImportPaths_covers imports (m : gmap string string) :
  (forall i, In i imports ->
     is_Some (resolvePath (cache imports m) i) \/ dependency (from i) = true)
  /\ (forall k v, m !! k = None -> cache imports m !! k = Some v ->
        v = path_of k /\ dependency k = false
        /\ exists i, In i imports /\ from i = k).
Proof.
  split.
  - intros i Hi. unfold resolvePath. apply cache_fold_covers, unique_spec.
    apply list_elem_of_In, in_map, Hi.
  - intros k v Hk Hv.
    destruct (cache_fold_new _ _ _ _ Hk Hv) as (Hpath & Hin & Hdep).
    split; [done|]. split; [done|].
    apply unique_spec, list_elem_of_In, in_map_iff in Hin as (i & Hfrom & Hi). eauto.
Qed.

(** X27: [cacheImportPaths] is idempotent: once it has run for some
    imports, running it again for them (each time the types are
    rendered) leaves the map as it is. *)
Theorem cacheImportPaths_idempotent imports (m : gmap string string) :
  cacheImportPaths resolveAlias isAbsolute tryResolveModule parseNodeModulePath
    lookupNodeModuleSubpath relative join is_file strip_extension dependencies buildDir
    imports (cache imports m)
  = cache imports m.
Proof.
  unfold cacheImportPaths at 1. apply cache_fold_settled.
  intros x Hx. by apply cache_fold_covers.
Qed.

End Declarations.

(** *** The statements above at concrete inputs *)

Import Examples.

Lemma builder_watch_without_scan_witness :
  builder_watch join_path id id extend_hook scan_fs registered (config false)
    addDir "composables" [useFoo]
  = (tt, [useFoo], []).
Proof.
  exact (builder_watch_without_scan join_path id id extend_hook scan_fs registered
           (config false) addDir "composables" [useFoo] eq_refl).
Defined.

Lemma composablesDirs_of_layer_witness :
  In "/app/composables" (composablesDirs join_path id id (config true)).
Proof.
  refine (proj1 (composablesDirs_of_layer join_path id id (config true) layer0 _ _ _ _)).
  - reflexivity.
  - left. reflexivity.
  - discriminate.
  - intros l d Hd. exact Hd.
Defined.

Lemma isImportsTemplate_needs_slash_witness :
  isImportsTemplate {| filename := "imports.mjs" |} = false.
Proof.
  refine (isImportsTemplate_needs_slash {| filename := "imports.mjs" |} _).
  cbn [filename]. intros p r H.
  repeat (destruct p as [|? p];
          [rewrite ImportsProps.append_nil_l in H; discriminate H
          |rewrite ImportsProps.append_cons in H; injection H as _ H]).
  destruct p; discriminate H.
Defined.

Lemma cacheImportPaths_keeps_witness :
  cache_paths [useFoo; useBar] paths0 !! "#app" = Some "../app".
Proof.
  refine (cacheImportPaths_keeps id (Js.startsWith "/") (fun _ => None)
            (fun _ => (None, None)) (fun _ => None) (fun _ path => path) join_path
            (fun _ => false) id installed "/app/.nuxt"
            [useFoo; useBar] paths0 "#app" "../app" _).
  apply lookup_singleton_eq.
Defined.

End ImportsExtra.
